(** * BeetConnection: the session, link and request protocol of beeteos-js

    A shallow embedding of [src/lib/BeetConnection.js]: the connection
    object with its flags, identity, one-time-password generator and list of
    pending requests; the promise store the pending requests point into;
    [reset], [fetch_ids], [sendRequest], [setAuth], [connect], [link] and
    the socket event handlers.

    Conventions of the embedding.
    - JavaScript values are the trees of [value]; numbers are integers.
    - Objects are association lists in insertion order.
    - Inbound wire messages are records typed after the message vocabulary
      ([link], [authenticate], [existing], [error], [encrypted] are
      booleans), so the three flags of the connection are booleans too.
    - Library calls (uuid, socket.io, otpauth, crypto-js, noble/ed25519) are
      not part of the repository: random draws are arguments, pure library
      functions are the fields of [Lib], and each call that matters for the
      protocol is recorded as an [event] in the trace of the operation.
    - An operation is a function from the world (connection object and
      promise store) to the world it leaves, the events it performed and
      either a result or the exception it threw; the state at a throw is the
      state the statements before it left.
    - An async function runs without interleaving up to the [await] of a
      promise that is settled by a socket event; [link] is therefore split
      at [await this.sendRequest(...)]. [console.log] is not modelled.
    - The [await]s inside [sendRequest('api', ...)] are made explicit in
      [api_begin] and [api_step], for calls that are begun before an
      earlier one has come to its end; [sendRequest] is the call whose
      steps follow one another with nothing in between. *)

From Stdlib Require Import ZArith Bool Lia.
From stdpp Require Import base list strings pretty.

Open Scope string_scope.
Open Scope list_scope.

(** ** Values *)

#[warnings="-register-all"]
Inductive value : Type :=
| VUndef
| VNull
| VBool (b : bool)
| VNum (z : Z)
| VStr (s : string)
| VArr (items : list value)
| VObj (fields : list (string * value)).

Definition object := list (string * value).

(** [a === b] on primitives; two objects or arrays are the same only as
    references, which two values coming from different places never are. *)
Definition strict_eq (a b : value) : bool :=
  match a, b with
  | VUndef, VUndef => true
  | VNull, VNull => true
  | VBool x, VBool y => Bool.eqb x y
  | VNum x, VNum y => Z.eqb x y
  | VStr x, VStr y => String.eqb x y
  | _, _ => false
  end.

Definition truthy (v : value) : bool :=
  match v with
  | VUndef | VNull => false
  | VBool b => b
  | VNum z => negb (Z.eqb z 0)
  | VStr s => negb (String.eqb s "")
  | VArr _ | VObj _ => true
  end.

Arguments strict_eq a b : simpl nomatch.
Arguments truthy v : simpl nomatch.

Inductive exn : Type :=
| TypeError (msg : string)
| Error (msg : string)
| LibError (lib : string).

(** [v.toString()]: a TypeError on [null] and [undefined]. *)
Fixpoint toString (v : value) : exn + string :=
  match v with
  | VUndef => inl (TypeError "Cannot read properties of undefined")
  | VNull => inl (TypeError "Cannot read properties of null")
  | VBool true => inr "true"
  | VBool false => inr "false"
  | VNum z => inr (pretty z)
  | VStr s => inr s
  | VArr items =>
      let elem (x : value) : string :=
        match x with
        | VUndef | VNull => ""
        | _ => match toString x with inr s => s | inl _ => "" end
        end in
      inr ((fix join (l : list value) : string :=
              match l with
              | [] => ""
              | [x] => elem x
              | x :: r => String.append (elem x) (String.append "," (join r))
              end) items)
  | VObj _ => inr "[object Object]"
  end.

(** ** Objects *)

Fixpoint obj_get (o : object) (k : string) : value :=
  match o with
  | [] => VUndef
  | (k', v) :: r => if String.eqb k' k then v else obj_get r k
  end.

(** [o[k] = v]: an existing key keeps its place, a new one goes last. *)
Fixpoint obj_set (o : object) (k : string) (v : value) : object :=
  match o with
  | [] => [(k, v)]
  | (k', v') :: r =>
      if String.eqb k' k then (k', v) :: r else (k', v') :: obj_set r k v
  end.

(** The own enumerable properties of a source of [Object.assign]: the
    fields of a mapping; the items of an array and the characters of a
    string (as [string] has them), each under its index written in decimal;
    none for [undefined] and [null], which are skipped, and none for a
    boolean or a number. *)
Definition own_props (source : value) : object :=
  match source with
  | VObj fs => fs
  | VArr items => imap (fun i x => (pretty i, x)) items
  | VStr s =>
      imap (fun i c => (pretty i, VStr (String c "")))
           (String.list_ascii_of_string s)
  | _ => []
  end.

(** [Object.assign(target, source)]: the properties of the source are set
    on the target one after the other. *)
Definition Object_assign (target : object) (source : value) : object :=
  fold_left (fun o kv => obj_set o (fst kv) (snd kv)) (own_props source)
    target.

(** [v.k] *)
Definition get_prop (v : value) (k : string) : exn + value :=
  match v with
  | VUndef => inl (TypeError "Cannot read properties of undefined")
  | VNull => inl (TypeError "Cannot read properties of null")
  | VObj fs => inr (obj_get fs k)
  | _ => inr VUndef
  end.

(** [v.k = x] in module (strict) code. A named property put on an array is
    not among its items. *)
Definition set_prop (v : value) (k : string) (x : value) : exn + value :=
  match v with
  | VUndef => inl (TypeError "Cannot set properties of undefined")
  | VNull => inl (TypeError "Cannot set properties of null")
  | VObj fs => inr (VObj (obj_set fs k x))
  | VArr items => inr (VArr items)
  | _ => inl (TypeError "Cannot create property on primitive")
  end.

(** [code == 2] for the codes of the vocabulary: the number, or its decimal
    spelling as a string. Other values that convert to the number 2 are left
    out. *)
Definition loose_eq_2 (v : value) : bool :=
  match v with
  | VNum z => Z.eqb z 2
  | VStr s => String.eqb s "2"
  | _ => false
  end.

Arguments get_prop v k : simpl nomatch.
Arguments set_prop v k x : simpl nomatch.
Arguments loose_eq_2 v : simpl nomatch.

(** ** The data of a connection *)

Definition bytes := list Byte.byte.

(** [new OTPAuth.HOTP({issuer, label, algorithm, digits, counter, secret})];
    only [counter] is ever assigned afterwards. *)
Record HOTP : Type := mkHOTP {
  issuer : string;
  label : string;
  algorithm : string;
  digits : Z;
  counter : value;
  hotp_secret : bytes
}.

(** [otp.counter = c] *)
Definition set_counter (c : value) (h : HOTP) : HOTP :=
  mkHOTP (issuer h) (label h) (algorithm h) (digits h) c (hotp_secret h).

(** Inbound messages. *)
Record AuthPayload : Type := mkAuthPayload {
  ap_authenticate : bool;
  ap_link : bool;
  ap_pub_key : value;
  ap_requested : value
}.

Record AuthMsg : Type := mkAuthMsg { auth_payload : AuthPayload }.

Record LinkPayload : Type := mkLinkPayload {
  lp_link : bool;
  lp_authenticate : bool;
  lp_existing : bool;
  lp_identityhash : value;
  lp_chain : value;
  lp_requested : value;
  lp_message : value
}.

Record LinkMsg : Type := mkLinkMsg {
  link_id : value;
  link_error : bool;
  link_payload : LinkPayload
}.

Record ApiMsg : Type := mkApiMsg {
  api_id : value;
  api_error : bool;
  api_encrypted : bool;
  api_payload : value
}.

(** What a promise is settled with. *)
Inductive answer : Type :=
| AValue (v : value)
| ALink (m : LinkMsg)
| AAuth (m : AuthMsg)
| AExn (e : exn).

Inductive promise_state : Type :=
| Pending
| Resolved (a : answer)
| Rejected (a : answer).

(** A promise is named by its place in the promise store; the [resolve] and
    [reject] functions of a request are the two ways of settling it. *)
Abbreviation promise := nat (only parsing).

(** An outbound message as it goes on the wire. *)
Record Message : Type := mkMessage {
  msg_type : string;
  msg_id : value;
  msg_payload : value
}.

(** [Object.assign(request, { resolve, reject })] *)
Record Request : Type := mkRequest {
  req_type : string;
  req_id : value;
  req_payload : value;
  req_promise : promise
}.

Definition message_of (r : Request) : Message :=
  mkMessage (req_type r) (req_id r) (req_payload r).

Abbreviation socket_handle := nat (only parsing).

(** The fields of [this] that the protocol reads or writes; the four
    constructor arguments that are only read are grouped in [App]. *)
Record App : Type := mkApp {
  appName : value;
  appHash : value;
  browser : value;
  origin : value
}.

Record BeetConnection : Type := mkBeetConnection {
  cfg : App;
  identity : option object;
  id : value;
  next_identification : value;
  connected : bool;
  authenticated : bool;
  linked : bool;
  otp : option HOTP;
  requests : list Request;
  socket : option socket_handle;
  secret : value;
  beetkey : value
}.

(** [new BeetConnection(appName, appHash, browser, origin, identity)];
    [secret] and [beetkey] are not assigned by the constructor. *)
Definition constructor (a : App) (ident : option object) : BeetConnection :=
  mkBeetConnection a ident VNull VNull false false false None [] None
                   VUndef VUndef.

Definition set_identity (x : option object) (c : BeetConnection) :=
  mkBeetConnection (cfg c) x (id c) (next_identification c) (connected c)
    (authenticated c) (linked c) (otp c) (requests c) (socket c) (secret c)
    (beetkey c).
Definition set_next_identification (x : value) (c : BeetConnection) :=
  mkBeetConnection (cfg c) (identity c) (id c) x (connected c)
    (authenticated c) (linked c) (otp c) (requests c) (socket c) (secret c)
    (beetkey c).
Definition set_connected (x : bool) (c : BeetConnection) :=
  mkBeetConnection (cfg c) (identity c) (id c) (next_identification c) x
    (authenticated c) (linked c) (otp c) (requests c) (socket c) (secret c)
    (beetkey c).
Definition set_authenticated (x : bool) (c : BeetConnection) :=
  mkBeetConnection (cfg c) (identity c) (id c) (next_identification c)
    (connected c) x (linked c) (otp c) (requests c) (socket c) (secret c)
    (beetkey c).
Definition set_linked (x : bool) (c : BeetConnection) :=
  mkBeetConnection (cfg c) (identity c) (id c) (next_identification c)
    (connected c) (authenticated c) x (otp c) (requests c) (socket c)
    (secret c) (beetkey c).
Definition set_otp (x : option HOTP) (c : BeetConnection) :=
  mkBeetConnection (cfg c) (identity c) (id c) (next_identification c)
    (connected c) (authenticated c) (linked c) x (requests c) (socket c)
    (secret c) (beetkey c).
Definition set_requests (x : list Request) (c : BeetConnection) :=
  mkBeetConnection (cfg c) (identity c) (id c) (next_identification c)
    (connected c) (authenticated c) (linked c) (otp c) x (socket c)
    (secret c) (beetkey c).
Definition set_socket (x : option socket_handle) (c : BeetConnection) :=
  mkBeetConnection (cfg c) (identity c) (id c) (next_identification c)
    (connected c) (authenticated c) (linked c) (otp c) (requests c) x
    (secret c) (beetkey c).
Definition set_secret (x : value) (c : BeetConnection) :=
  mkBeetConnection (cfg c) (identity c) (id c) (next_identification c)
    (connected c) (authenticated c) (linked c) (otp c) (requests c)
    (socket c) x (beetkey c).
Definition set_beetkey (x : value) (c : BeetConnection) :=
  mkBeetConnection (cfg c) (identity c) (id c) (next_identification c)
    (connected c) (authenticated c) (linked c) (otp c) (requests c)
    (socket c) (secret c) x.

(** The connection object and the promises created so far. *)
Record World : Type := mkWorld {
  this : BeetConnection;
  promises : list promise_state
}.

(** ** Library calls *)

Record Lib : Type := mkLib {
  (** [sha256(x).toString()], or the library throws *)
  sha256 : value -> option string;
  JSON_stringify : value -> string;
  (** [OTPAuth.Secret.fromHex(x)], or the library throws *)
  Secret_fromHex : value -> option bytes;
  (** [otp.generate()] *)
  HOTP_generate : HOTP -> string;
  (** [aes.encrypt(text, key).toString()] *)
  aes_encrypt : string -> string -> string;
  (** [aes.decrypt(x, key).toString(ENC)], or the library throws *)
  aes_decrypt : value -> string -> option string;
  (** [ed.getSharedSecret(privk, pubkey)], or the library throws *)
  getSharedSecret : bytes -> value -> option bytes;
  (** [ed.getPublicKey(privk)], or the library throws *)
  getPublicKey : bytes -> option bytes;
  bytesToHex : bytes -> string
}.

(** The library calls an operation performed, in order. *)
Inductive event : Type :=
| EIo (ssl : bool) (port : value)
| EEmit (s : socket_handle) (name : string) (m : Message)
| ESocketDisconnect (s : socket_handle)
| ERandomPrivateKey
| EGetSharedSecret (privk : bytes) (pubkey : value)
| EGetPublicKey (privk : bytes)
| EGenerate (h : HOTP)
| EEncrypt (text : string) (key : string)
| EDecrypt (payload : value) (key : string).

(** ** Operations as state transformers with a trace and exceptions *)

Inductive completion (A : Type) : Type :=
| Return (a : A)
| Throw (e : exn).
Arguments Return {A} a.
Arguments Throw {A} e.

Record run (A : Type) : Type := mkRun {
  world_after : World;
  trace : list event;
  outcome : completion A
}.
Arguments mkRun {A} _ _ _.
Arguments world_after {A} _.
Arguments trace {A} _.
Arguments outcome {A} _.

Definition M (A : Type) : Type := World -> run A.

Definition ret {A} (a : A) : M A := fun w => mkRun w [] (Return a).

Definition throw {A} (e : exn) : M A := fun w => mkRun w [] (Throw e).

Definition bind {A B} (m : M A) (k : A -> M B) : M B := fun w =>
  match m w with
  | mkRun w1 t1 (Return a) =>
      match k a w1 with
      | mkRun w2 t2 o => mkRun w2 (t1 ++ t2) o
      end
  | mkRun w1 t1 (Throw e) => mkRun w1 t1 (Throw e)
  end.

(** [try { m } catch (e) { h(e) }] *)
Definition try_catch {A} (m : M A) (h : exn -> M A) : M A := fun w =>
  match m w with
  | mkRun w1 t1 (Return a) => mkRun w1 t1 (Return a)
  | mkRun w1 t1 (Throw e) =>
      match h e w1 with
      | mkRun w2 t2 o => mkRun w2 (t1 ++ t2) o
      end
  end.

Declare Scope js_scope.
Delimit Scope js_scope with js.
Notation "'let*' x ':=' m 'in' k" := (bind m (fun x => k))
  (at level 10, x name, m at level 100, k at level 200) : js_scope.
Notation "m ;; k" := (bind m (fun _ => k))
  (at level 100, k at level 200, right associativity) : js_scope.
Open Scope js_scope.

Definition get_this : M BeetConnection := fun w => mkRun w [] (Return (this w)).

Definition modify_this (f : BeetConnection -> BeetConnection) : M unit :=
  fun w => mkRun (mkWorld (f (this w)) (promises w)) [] (Return tt).

Definition emit (e : event) : M unit := fun w => mkRun w [e] (Return tt).

Definition of_sum {A} (x : exn + A) : M A :=
  match x with
  | inl e => throw e
  | inr a => ret a
  end.

Definition lib_call {A} (name : string) (x : option A) : M A :=
  match x with
  | Some a => ret a
  | None => throw (LibError name)
  end.

(** ** Promises *)

(** [new Promise(...)] *)
Definition new_promise : M promise := fun w =>
  mkRun (mkWorld (this w) (promises w ++ [Pending])) []
        (Return (length (promises w))).

(** Only a pending promise can be settled; later calls of its [resolve] or
    [reject] do nothing. *)
Definition settle (p : promise) (st : promise_state)
    (ps : list promise_state) : list promise_state :=
  match ps !! p with
  | Some Pending => <[p := st]> ps
  | _ => ps
  end.

Definition resolve (p : promise) (a : answer) : M unit := fun w =>
  mkRun (mkWorld (this w) (settle p (Resolved a) (promises w))) [] (Return tt).

Definition reject (p : promise) (a : answer) : M unit := fun w =>
  mkRun (mkWorld (this w) (settle p (Rejected a) (promises w))) [] (Return tt).

(** ** The request registry *)

(** [this.requests.find(x => x.id === wanted || x.id.toString() === wanted)] *)
Fixpoint find_request (wanted : value) (l : list Request)
    : exn + option Request :=
  match l with
  | [] => inr None
  | x :: rest =>
      if strict_eq (req_id x) wanted then inr (Some x)
      else match toString (req_id x) with
           | inl e => inl e
           | inr s =>
               if strict_eq (VStr s) wanted then inr (Some x)
               else find_request wanted rest
           end
  end.

(** ** The methods of [BeetConnection] *)

(** [!x] for a field that holds an object or [null]. *)
Definition is_null {A} (x : option A) : bool :=
  match x with
  | Some _ => false
  | None => true
  end.

Record Ids : Type := mkIds { ids_id : value; ids_next_hash : string }.

(** The result of [link] up to its [await]. *)
Inductive link_step : Type :=
| LinkReturned
| LinkAwaits (p : promise).

(** The result of [link] once the awaited promise is looked at. *)
Inductive link_result : Type :=
| LinkStillAwaits
| LinkUndefined
| LinkValue (a : answer).

Definition new_HOTP (sec : bytes) : HOTP :=
  mkHOTP "Beet" "BeetAuth" "SHA1" 32 (VNum 0) sec.

Section Methods.

Variable L : Lib.

Definition reset : M unit :=
  modify_this (set_connected false);;
  modify_this (set_authenticated false);;
  modify_this (set_identity None);;
  modify_this (set_linked false);;
  modify_this (set_socket None);;
  modify_this (set_otp None);;
  modify_this (set_requests []).

(** [uuid] is the draw of [uuidv4()]. The call is taken through its
    [await]s with no other call in between; [api_begin] and [api_step]
    below take it one step at a time. *)
Definition fetch_ids (uuid : string) : M Ids :=
  let* c := get_this in
  if connected c && authenticated c && linked c then
    let id := next_identification c in
    let new_id := VStr uuid in
    modify_this (set_next_identification new_id);;
    let* next_hash := lib_call "sha256" (sha256 L new_id) in
    ret (mkIds id next_hash)
  else
    throw (Error "You must be connected, authorised and linked.").

(** The body of the [async (resolve, reject) => ...] passed to
    [new Promise] in [sendRequest]; [p] stands for the pair
    [resolve], [reject]. *)
Definition sendRequest_executor (type : string) (payload : value)
    (uuid : string) (p : promise) : M unit :=
  let* c := get_this in
  if negb (connected c) || is_null (socket c) then
    reject p (AValue (VStr "No beeteos ws connection."))
  else
    let* request :=
      (if String.eqb type "api" then
         let* ids := fetch_ids uuid in
         let* payload' :=
           of_sum (set_prop payload "next_hash" (VStr (ids_next_hash ids))) in
         let request_id := ids_id ids in
         let* c := get_this in
         match otp c with
         | None => throw (TypeError "Cannot set properties of null")
         | Some h =>
             let h' := set_counter request_id h in
             modify_this (set_otp (Some h'));;
             emit (EGenerate h');;
             let key := HOTP_generate L h' in
             let text := JSON_stringify L payload' in
             emit (EEncrypt text key);;
             ret (mkRequest type request_id
                    (VStr (aes_encrypt L text key)) p)
         end
       else
         ret (mkRequest type (VStr uuid) payload p)) in
    modify_this (fun c => set_requests (requests c ++ [request]) c);;
    let* c := get_this in
    match socket c with
    | None => throw (TypeError "Cannot read properties of null")
    | Some s => emit (EEmit s type (message_of request))
    end.

(** [sendRequest] returns the promise whatever its executor does: what the
    async executor throws rejects the executor's own promise, which nobody
    holds, and leaves the returned one as it is. *)
Definition sendRequest (type : string) (payload : value) (uuid : string)
    : M promise :=
  let* p := new_promise in
  try_catch (sendRequest_executor type payload uuid p) (fun _ => ret tt);;
  ret p.

Definition setAuth (authToken : AuthMsg) : M unit :=
  let pl := auth_payload authToken in
  modify_this (set_authenticated (ap_authenticate pl));;
  modify_this (set_linked (ap_link pl));;
  if negb (ap_link pl) then modify_this (set_beetkey (ap_pub_key pl))
  else ret tt.

(** [connect(identity, ssl, port)] up to the registration of the handlers;
    [sock] is what [io(...)] returned, [None] when it threw. The handlers
    are the [on_...] functions below. *)
Definition connect (ident : option object) (ssl : bool) (port : value)
    (sock : option socket_handle) : M promise :=
  let* p := new_promise in
  match ident with
  | None => reset
  | Some i => modify_this (set_identity (Some i))
  end;;
  emit (EIo ssl port);;
  match sock with
  | None => reject p (AValue (VBool false));; ret p
  | Some s => modify_this (set_socket (Some s));; ret p
  end.

(** [socket.on("connect", ...)]; [ident] and [s] are the [identity] and
    [socket] of the enclosing [connect] call. *)
Definition on_connect (ident : option object) (s : socket_handle)
    (uuid : string) : M unit :=
  modify_this (set_connected true);;
  let* c := get_this in
  let base :=
    [("origin", origin (cfg c)); ("appName", appName (cfg c));
     ("browser", browser (cfg c))] in
  let payload :=
    match ident with
    | Some i =>
        if truthy (obj_get i "identityhash")
        then base ++ [("identityhash", obj_get i "identityhash")]
        else base
    | None => base
    end in
  emit (EEmit s "authenticate"
          (mkMessage "authenticate" (VStr uuid) (VObj payload))).

(** [socket.on('authenticated', ...)]; [p] is the promise returned by the
    enclosing [connect] call. *)
Definition on_authenticated (p : promise) (auth : AuthMsg) : M unit :=
  let pl := auth_payload auth in
  (if ap_link pl then
     let* c := get_this in
     match identity c with
     | None => throw (TypeError "Cannot read properties of null")
     | Some i =>
         let* sec := lib_call "Secret.fromHex"
                       (Secret_fromHex L (obj_get i "secret")) in
         modify_this (set_otp (Some (new_HOTP sec)));;
         modify_this (set_identity
                        (Some (Object_assign i (ap_requested pl))))
     end
   else
     modify_this (set_beetkey (ap_pub_key pl)));;
  resolve p (AAuth auth).

(** [socket.on("link", ...)] *)
Definition on_link (linkRequest : LinkMsg) : M unit :=
  let* c := get_this in
  let* relevantRequest := of_sum (find_request (link_id linkRequest)
                                                (requests c)) in
  match relevantRequest with
  | None => ret tt
  | Some r =>
      let pl := link_payload linkRequest in
      (if link_error linkRequest
       then reject (req_promise r) (ALink linkRequest)
       else ret tt);;
      modify_this (set_linked (lp_link pl));;
      modify_this (set_authenticated (lp_authenticate pl));;
      modify_this (fun c =>
        set_identity
          (match lp_existing pl, identity c with
           | true, Some i => Some (Object_assign i (lp_requested pl))
           | _, _ =>
               Some [("apphash", appHash (cfg c));
                     ("identityhash", lp_identityhash pl);
                     ("chain", lp_chain pl);
                     ("appName", appName (cfg c));
                     ("secret", secret c);
                     ("next_id", next_identification c);
                     ("requested", lp_requested pl)]
           end) c);;
      let* c := get_this in
      let* sec := lib_call "Secret.fromHex" (Secret_fromHex L (secret c)) in
      modify_this (set_otp (Some (new_HOTP sec)));;
      resolve (req_promise r) (ALink linkRequest)
  end.

(** [socket.on("api", ...)] *)
Definition on_api (msg : ApiMsg) : M unit :=
  let* c := get_this in
  let* relevantRequest := of_sum (find_request (api_id msg) (requests c)) in
  match relevantRequest with
  | None => ret tt
  | Some r =>
      (if api_error msg then
         let* code := of_sum (get_prop (api_payload msg) "code") in
         (if loose_eq_2 code then reset else ret tt);;
         reject (req_promise r) (AValue (api_payload msg))
       else ret tt);;
      if api_encrypted msg then
        let* c := get_this in
        match otp c with
        | None => throw (TypeError "Cannot set properties of null")
        | Some h =>
            let h' := set_counter (api_id msg) h in
            modify_this (set_otp (Some h'));;
            emit (EGenerate h');;
            let key := HOTP_generate L h' in
            emit (EDecrypt (api_payload msg) key);;
            let* decryptedValue :=
              try_catch
                (let* text := lib_call "aes.decrypt"
                                (aes_decrypt L (api_payload msg) key) in
                 ret (VStr text))
                (fun error => reject (req_promise r) (AExn error);;
                              ret VUndef) in
            resolve (req_promise r) (AValue decryptedValue)
        end
      else
        resolve (req_promise r) (AValue (api_payload msg))
  end.

(** [socket.on("disconnect", ...)] *)
Definition on_disconnect : M unit :=
  modify_this (set_connected false);;
  modify_this (set_socket None);;
  modify_this (set_requests []).

(** [socket.on("reconnect_error", ...)] and [socket.on("connect_error", ...)] *)
Definition on_connect_error : M unit :=
  let* c := get_this in
  match socket c with
  | Some s => emit (ESocketDisconnect s)
  | None => ret tt
  end.

(** [this.identity && this.identity.identityhash]: the stored identity
    when the test holds. *)
Definition stored_identity (c : BeetConnection) : option object :=
  match identity c with
  | Some i => if truthy (obj_get i "identityhash") then Some i else None
  | None => None
  end.

(** [link(chain, requestDetails)] up to [await this.sendRequest(...)].
    [privk] is the draw of [ed.utils.randomPrivateKey()], [uuid_next] the
    draw of [uuidv4()] for [next_id] and [uuid_req] the one made inside
    [sendRequest]. *)
Definition link_begin (chain requestDetails : value) (privk : bytes)
    (uuid_next uuid_req : string) : M link_step :=
  let* c := get_this in
  if negb (connected c) then
    throw (Error "You must connect to beeteos first.")
  else
    let linkObj := [("chain", chain); ("request", requestDetails)] in
    let* prepared :=
      match stored_identity c with
      | Some i =>
          (* Relinking *)
          let next_id := obj_get i "next_id" in
          modify_this (set_next_identification next_id);;
          modify_this (set_secret (obj_get i "secret"));;
          ret (Some (next_id, linkObj))
      | None =>
          (* Linking *)
          if negb (truthy (beetkey c)) then ret None
          else
            emit ERandomPrivateKey;;
            emit (EGetSharedSecret privk (beetkey c));;
            match getSharedSecret L privk (beetkey c) with
            | None => ret None
            | Some shared =>
                modify_this (set_secret (VStr (bytesToHex L shared)));;
                let next_id := VStr uuid_next in
                emit (EGetPublicKey privk);;
                match getPublicKey L privk with
                | None => ret None
                | Some pubk =>
                    ret (Some (next_id,
                               obj_set linkObj "pubkey"
                                       (VStr (bytesToHex L pubk))))
                end
            end
      end in
    match prepared with
    | None => ret LinkReturned
    | Some (next_id, linkObj) =>
        modify_this (set_next_identification next_id);;
        match sha256 L next_id with
        | None => ret LinkReturned
        | Some next_hash =>
            let linkObj := obj_set linkObj "next_hash" (VStr next_hash) in
            let* c := get_this in
            let* p :=
              match stored_identity c with
              | Some i =>
                  sendRequest "relinkRequest"
                    (VObj (obj_set linkObj "identityhash"
                                   (obj_get i "identityhash")))
                    uuid_req
              | None =>
                  sendRequest "linkRequest" (VObj linkObj) uuid_req
              end in
            ret (LinkAwaits p)
        end
    end.

(** [link] from its [await] on: the value of the promise when it was
    resolved, the [catch] block when it was rejected. *)
Definition link_resume (p : promise) : M link_result := fun w =>
  match promises w !! p with
  | Some (Resolved a) => ret (LinkValue a) w
  | Some (Rejected _) =>
      (modify_this (set_identity None);; ret LinkUndefined) w
  | _ => ret LinkStillAwaits w
  end.

End Methods.

(** ** Vocabulary of the statements *)

(** The events of a key agreement. *)
Definition is_key_agreement (e : event) : bool :=
  match e with
  | ERandomPrivateKey | EGetSharedSecret _ _ | EGetPublicKey _ => true
  | _ => false
  end.

(** What a relink request carries: no [pubkey]. *)
Definition relink_payload (chain rd : value) (h : string) (i : object)
    : value :=
  VObj [("chain", chain); ("request", rd); ("next_hash", VStr h);
        ("identityhash", obj_get i "identityhash")].

(** The session invariant: linked implies authenticated, authenticated
    implies connected, and an [otp] that is present implies linked. *)
Definition session_inv (c : BeetConnection) : Prop :=
  (linked c = true -> authenticated c = true) /\
  (authenticated c = true -> connected c = true) /\
  (is_null (otp c) = false -> linked c = true).

(** ** A small library instance and sample data, for the concrete runs *)

Module Sample.

Definition counter_text (v : value) : string :=
  match toString v with
  | inr s => s
  | inl _ => "null"
  end.

Definition lib : Lib := {|
  sha256 := fun v =>
    match v with
    | VStr s => Some (String.append "sha256:" s)
    | VUndef => Some "sha256:"
    | _ => None
    end;
  JSON_stringify := fun v =>
    match v with
    | VStr s => s
    | VObj fs => String.append "obj:" (pretty (length fs))
    | _ => "json"
    end;
  Secret_fromHex := fun v =>
    match v with
    | VStr s => Some (String.list_byte_of_string s)
    | _ => None
    end;
  HOTP_generate := fun h =>
    String.append (String.string_of_list_byte (hotp_secret h))
                  (String.append "#" (counter_text (counter h)));
  aes_encrypt := fun text key => String.append key (String.append "|" text);
  aes_decrypt := fun payload key =>
    match payload with
    | VStr s =>
        let k := String.append key "|" in
        if String.prefix k s
        then Some (String.substring (String.length k)
                     (String.length s - String.length k) s)
        else None
    | _ => None
    end;
  getSharedSecret := fun privk pubkey =>
    match pubkey with
    | VStr s => Some (privk ++ String.list_byte_of_string s)
    | _ => None
    end;
  getPublicKey := fun privk => Some (rev privk);
  bytesToHex := String.string_of_list_byte
|}.

Definition the_app : App :=
  mkApp (VStr "demo") (VStr "apphash") (VStr "node") (VStr "localhost").

Definition stored : object :=
  [("identityhash", VStr "IH"); ("secret", VStr "abcd");
   ("next_id", VStr "id-0"); ("chain", VStr "BTS")].

Definition the_otp : HOTP := new_HOTP (String.list_byte_of_string "abcd").

Definition request_a : Request :=
  mkRequest "api" (VStr "id-a") (VStr "cipher-a") 0.
Definition request_b : Request :=
  mkRequest "api" (VStr "id-b") (VStr "cipher-b") 1.

(** A linked session with two requests in flight. *)
Definition linked_conn : BeetConnection :=
  mkBeetConnection the_app (Some stored) VNull (VStr "id-1") true true true
    (Some the_otp) [request_a; request_b] (Some 7) (VStr "abcd")
    (VStr "PKHEX").

Definition linked_world : World := mkWorld linked_conn [Pending; Pending].

(** A fresh connection object, and one that is connected and authenticated
    but has no link yet. *)
Definition fresh_world : World := mkWorld (constructor the_app None) [].

Definition authenticated_conn : BeetConnection :=
  mkBeetConnection the_app None VNull VNull true true false None [] (Some 7)
    VUndef (VStr "PKHEX").

Definition authenticated_world : World := mkWorld authenticated_conn [].

(** A connection made with the stored identity, connected and waiting for
    the answer to its authenticate message; promise 0 is the one [connect]
    returned. *)
Definition reconnected_world : World :=
  mkWorld (mkBeetConnection the_app (Some stored) VNull VNull true false
             false None [] (Some 7) VUndef VUndef)
          [Pending].

Definition call : value :=
  VObj [("method", VStr "getAccount"); ("params", VObj [])].

Definition privk : bytes := [Byte.x6b; Byte.x31].

(** The first link of the authenticated session, up to its [await]. *)
Definition first_link : run link_step :=
  link_begin lib (VStr "BTS") (VArr [VStr "account"]) privk "n1" "r1"
    authenticated_world.

(** The remote declines the link request [r1]. *)
Definition link_rejection : LinkMsg :=
  mkLinkMsg (VStr "r1") true
    (mkLinkPayload false true false VUndef VUndef VUndef
       (VStr "User rejected request")).

(** The remote accepts the link request [r1]. *)
Definition link_approval : LinkMsg :=
  mkLinkMsg (VStr "r1") false
    (mkLinkPayload true true false (VStr "IH") (VStr "BTS")
       (VObj [("account", VObj [("name", VStr "alice")])]) VUndef).

(** A token that reports an authenticated and linked session. *)
Definition linked_token : AuthMsg :=
  mkAuthMsg (mkAuthPayload true true VUndef VUndef).

(** An error with code 2 for a request that is not in the registry, and one
    for the pending request [id-a]. *)
Definition fatal_payload : value :=
  VObj [("code", VNum 2); ("message", VStr "fatal")].
Definition fatal_unmatched : ApiMsg :=
  mkApiMsg (VStr "id-x") true false fatal_payload.
Definition fatal_for_a : ApiMsg :=
  mkApiMsg (VStr "id-a") true false fatal_payload.

(** A clear answer to [id-a], an encrypted answer to [id-a] that decrypts,
    and one that does not. *)
Definition answer_a : ApiMsg :=
  mkApiMsg (VStr "id-a") false false (VStr "result").
Definition encrypted_answer_a : ApiMsg :=
  mkApiMsg (VStr "id-a") false true (VStr "abcd#id-a|result").
Definition garbled_answer_a : ApiMsg :=
  mkApiMsg (VStr "id-a") false true (VStr "zzzz").

(** The encrypted answer to the api request that [sendRequest] sends from
    the linked session, whose id is [id-1]. *)
Definition encrypted_answer_1 : ApiMsg :=
  mkApiMsg (VStr "id-1") false true (VStr "abcd#id-1|result").

End Sample.

(** ** The api calls *)

(** What a [throw] was given: an exception object or, for [throw "..."],
    the text itself. *)
Inductive thrown : Type :=
| ThrownExn (e : exn)
| ThrownText (s : string).

(** What an api call returns once its promise is looked at. *)
Inductive call_result : Type :=
| CallStillAwaits
| CallUndefined
| CallAnswer (a : answer)
| CallParsed (v : value).

(** [if (message)]: what a promise was resolved with is an object unless it
    is a plain value. *)
Definition answer_truthy (a : answer) : bool :=
  match a with
  | AValue v => truthy v
  | _ => true
  end.

(** [{ method: ..., params: ... }] *)
Definition call_payload (method : string) (params : value) : value :=
  VObj [("method", VStr method); ("params", params)].

(** [try { x = await this.sendRequest('api', ...) } catch (error) { return; }]
    from the [await] on, followed by the rest [k] of the method. *)
Definition await_call (p : promise) (k : answer -> M call_result)
    : M call_result := fun w =>
  match promises w !! p with
  | Some (Resolved a) => k a w
  | Some (Rejected _) => ret CallUndefined w
  | _ => ret CallStillAwaits w
  end.

(** [getAccount()] reads the connection only; it returns the account or
    says what it throws. *)
Definition getAccount (c : BeetConnection) : thrown + value :=
  match identity c with
  | None => inl (ThrownExn (TypeError "Cannot read properties of null"))
  | Some i =>
      if truthy (obj_get i "account") then inr (obj_get i "account")
      else inl (ThrownText
                  "This connection does not have access to account details")
  end.

Section Calls.

Variable L : Lib.

(** [JSON.parse(x)], or it throws. *)
Variable JSON_parse : value -> option value.

(** [JSON.parse] of what a promise was resolved with: an object that is not
    a plain value reads as the text [[object Object]], which does not
    parse. *)
Definition parse_answer (a : answer) : option value :=
  match a with
  | AValue v => JSON_parse v
  | _ => None
  end.

Definition requestAccount_begin (uuid : string) : M promise :=
  sendRequest L "api" (call_payload "getAccount" (VObj [])) uuid.

Definition requestAccount_resume (p : promise) : M call_result :=
  await_call p (fun account =>
    let* v := lib_call "JSON.parse" (parse_answer account) in
    ret (CallParsed v)).

Definition requestSignature_begin (payload : value) (uuid : string)
    : M promise :=
  sendRequest L "api" (call_payload "requestSignature" payload) uuid.

Definition requestSignature_resume (p : promise) : M call_result :=
  await_call p (fun sigReq => ret (CallAnswer sigReq)).

Definition injectedCall_begin (payload : value) (uuid : string)
    : M promise :=
  sendRequest L "api" (call_payload "injectedCall" payload) uuid.

Definition injectedCall_resume (p : promise) : M call_result :=
  await_call p (fun injectedCall => ret (CallAnswer injectedCall)).

Definition signMessage_begin (text : value) (uuid : string) : M promise :=
  sendRequest L "api" (call_payload "signMessage" text) uuid.

Definition signMessage_resume (p : promise) : M call_result :=
  await_call p (fun message =>
    if answer_truthy message then
      let* v := lib_call "JSON.parse" (parse_answer message) in
      ret (CallParsed v)
    else ret CallUndefined).

Definition signNFT_begin (nft_object : value) (uuid : string) : M promise :=
  sendRequest L "api"
    (call_payload "signNFT" (VStr (JSON_stringify L nft_object))) uuid.

Definition signNFT_resume (p : promise) : M call_result :=
  await_call p (fun message =>
    if answer_truthy message then
      let* v := lib_call "JSON.parse" (parse_answer message) in
      ret (CallParsed v)
    else ret CallUndefined).

Definition verifyMessage_begin (signedMessage : value) (uuid : string)
    : M promise :=
  sendRequest L "api" (call_payload "verifyMessage" signedMessage) uuid.

Definition verifyMessage_resume (p : promise) : M call_result :=
  await_call p (fun result => ret (CallAnswer result)).

End Calls.

(** ** Injection *)

(** The truth values of [options.sign] and [options.broadcast]. *)
Record Options : Type := mkOptions {
  opt_sign : bool;
  opt_broadcast : bool
}.

(** [options = {sign: true, broadcast: true}] *)
Definition default_options : Options := mkOptions true true.

(** What [inject] asks of the object it is given:
    [!!p.prototype && !!p.prototype.get_type_operation], [p.broadcast] and
    [!!p.placeOrder]. *)
Record PointOfInjection : Type := mkPointOfInjection {
  poi_get_type_operation : bool;
  poi_broadcast : bool;
  poi_placeOrder : bool
}.

(** What [injectTransactionBuilder] has put on the prototype when it
    returns the builder. *)
Inductive injection : Type :=
| InjectedSignAndBroadcast
| InjectedSign
| NotInjected.

Definition injectTransactionBuilder (options : Options)
    : thrown + injection :=
  if opt_sign options && opt_broadcast options then
    inr InjectedSignAndBroadcast
  else if opt_sign options && negb (opt_broadcast options) then
    inr InjectedSign
  else if negb (opt_sign options) && opt_broadcast options then
    inl (ThrownText "Unsupported injection")
  else inr NotInjected.

(** The text that [chain == "NAME"] compares with a name that is not the
    text of a number: a string is compared as it is, an array or an object
    by its [toString()]; undefined, null, booleans and numbers are equal to
    no such name. *)
Definition chain_text (chain : value) : option string :=
  match chain with
  | VStr s => Some s
  | VArr _ | VObj _ =>
      match toString chain with
      | inr s => Some s
      | inl _ => None
      end
  | _ => None
  end.

(** [chain == "NAME"] *)
Definition chain_is (chain : value) (name : string) : bool :=
  match chain_text chain with
  | Some s => String.eqb s name
  | None => false
  end.

(** [inject(pointOfInjection, options)]. The class has no method
    [injectSteemLib] or [injectBinanceLib], so calling them is a
    TypeError. *)
Definition inject (pointOfInjection : PointOfInjection)
    (options : option Options) (c : BeetConnection) : thrown + injection :=
  let options := match options with
                 | Some o => o
                 | None => default_options
                 end in
  let unsupported :=
    inl (ThrownExn (Error "Unsupported point of injection")) in
  match identity c with
  | None => inl (ThrownExn (TypeError "Cannot read properties of null"))
  | Some i =>
      let chain := obj_get i "chain" in
      if chain_is chain "BTS" || chain_is chain "BTS_TEST"
         || chain_is chain "TUSC" then
        if poi_get_type_operation pointOfInjection
        then injectTransactionBuilder options
        else unsupported
      else if chain_is chain "STEEM" then
        if poi_broadcast pointOfInjection
        then inl (ThrownExn
                    (TypeError "this.injectSteemLib is not a function"))
        else unsupported
      else if chain_is chain "BNB_TEST" then
        if poi_placeOrder pointOfInjection
        then inl (ThrownExn
                    (TypeError "this.injectBinanceLib is not a function"))
        else unsupported
      else unsupported
  end.

(** The fields of a transaction builder that the injected methods read or
    write; [tr_object] is what its [toObject()] returns. *)
Record Builder : Type := mkBuilder {
  tr_buffer : value;
  signed : value;
  signer_public_keys : option (list value);
  operations : value;
  tr_object : value
}.

Definition is_string (v : value) : bool :=
  match v with
  | VStr _ => true
  | _ => false
  end.

(** The injected [add_signer(private_key, public_key)], the same under both
    kinds of injection. *)
Definition add_signer (private_key public_key : value) (b : Builder)
    : thrown + Builder :=
  if negb (is_string private_key) || negb (truthy private_key)
     || negb (strict_eq private_key (VStr "inject_wif"))
  then inl (ThrownExn (Error "Do not inject wif while using Beet"))
  else
    let keys := match signer_public_keys b with
                | None => []
                | Some ks => ks
                end in
    inr (mkBuilder (tr_buffer b) (signed b) (Some (keys ++ [public_key]))
           (operations b) (tr_object b)).

(** The injected [sign()] when the wallet signs and broadcasts in one
    call: it only marks the builder. Reading [length] of keys that were
    never set is a TypeError. *)
Definition sign_for_broadcast (b : Builder) : thrown + Builder :=
  if negb (truthy (tr_buffer b)) then
    inl (ThrownExn (Error "not finalized"))
  else if truthy (signed b) then
    inl (ThrownExn (Error "already signed"))
  else
    match signer_public_keys b with
    | None =>
        inl (ThrownExn (TypeError "Cannot read properties of undefined"))
    | Some [] =>
        inl (ThrownExn
               (Error "Transaction was not signed. Do you have a private key? [no_signers]"))
    | Some (_ :: _) =>
        inr (mkBuilder (tr_buffer b) (VBool true) (signer_public_keys b)
               (operations b) (tr_object b))
    end.

Definition keys_value (b : Builder) : value :=
  match signer_public_keys b with
  | None => VUndef
  | Some ks => VArr ks
  end.

Section Injected.

Variable L : Lib.

(** [[action, JSON.stringify(builder.toObject()), builder.signer_public_keys]] *)
Definition injected_args (action : string) (b : Builder) : value :=
  VArr [VStr action; VStr (JSON_stringify L (tr_object b)); keys_value b].

(** [send_to_beet(builder)], which the injected [broadcast] calls with the
    builder itself. The test on the number of operations compares a number
    with itself and never throws; reading [length] of missing operations
    does, inside the executor, which rejects the promise. The promise
    returned here is the one of [sendRequest]: the promises wrapped around
    it by [send_to_beet] and [broadcast] are settled as it is. *)
Definition send_to_beet (b : Builder) (uuid : string) : M promise :=
  match operations b with
  | VUndef | VNull =>
      let* p := new_promise in
      reject p (AExn (TypeError "Cannot read properties of undefined"));;
      ret p
  | _ =>
      sendRequest L "api"
        (call_payload "injectedCall" (injected_args "signAndBroadcast" b))
        uuid
  end.

(** The request of the injected [sign()] when the wallet signs only. *)
Definition sign_request (b : Builder) (uuid : string) : M promise :=
  sendRequest L "api"
    (call_payload "injectedCall" (injected_args "sign" b)) uuid.

End Injected.

(** ** The api request step by step *)

(** [sendRequest('api', payload)] gives the control back at each [await] on
    its way: in [fetch_ids] at [await uuidv4()], when the id has been read
    and the new one drawn but not yet stored; at
    [await sha256(new_id).toString()], when the new id has been stored and
    hashed; and at [await this.fetch_ids()]. The last two have nothing
    between them that reads or writes the connection and are one step
    here. What another call or a handler does to the connection in between
    is what the next step finds. *)

(** A call that waits at an [await]: at the first with the promise it
    returned, its payload, the id it read and the id it drew; at the
    second with the ids that [fetch_ids] returns. *)
Inductive api_task : Type :=
| ApiDrawn (p : promise) (payload : value) (id : value) (new_id : string)
| ApiHashed (p : promise) (payload : value) (ids : Ids).

(** A call of [sendRequest('api', payload)]: not yet made ([uuid] is what
    its [uuidv4()] will draw), waiting, or at the end of its executor,
    where [p] is the promise it returned. *)
Inductive api_call : Type :=
| NotBegun (payload : value) (uuid : string)
| Waiting (t : api_task)
| Ended (p : promise).

Section Steps.

Variable L : Lib.

(** From the call to the first [await]. As in [sendRequest], what the
    executor throws settles nothing. *)
Definition api_begin (payload : value) (uuid : string) : M api_call :=
  let* p := new_promise in
  try_catch
    (let* c := get_this in
     if negb (connected c) || is_null (socket c) then
       reject p (AValue (VStr "No beeteos ws connection."));;
       ret (Ended p)
     else
       let* c := get_this in
       if connected c && authenticated c && linked c then
         let id := next_identification c in
         ret (Waiting (ApiDrawn p payload id uuid))
       else
         throw (Error "You must be connected, authorised and linked."))
    (fun _ => ret (Ended p)).

(** From one [await] to the next, or to the end of the executor. *)
Definition api_step (t : api_task) : M api_call :=
  match t with
  | ApiDrawn p payload id uuid =>
      try_catch
        (let new_id := VStr uuid in
         modify_this (set_next_identification new_id);;
         let* next_hash := lib_call "sha256" (sha256 L new_id) in
         ret (Waiting (ApiHashed p payload (mkIds id next_hash))))
        (fun _ => ret (Ended p))
  | ApiHashed p payload ids =>
      try_catch
        (let* payload' :=
           of_sum (set_prop payload "next_hash" (VStr (ids_next_hash ids))) in
         let request_id := ids_id ids in
         let* c := get_this in
         let* request :=
           match otp c with
           | None => throw (TypeError "Cannot set properties of null")
           | Some h =>
               let h' := set_counter request_id h in
               modify_this (set_otp (Some h'));;
               emit (EGenerate h');;
               let key := HOTP_generate L h' in
               let text := JSON_stringify L payload' in
               emit (EEncrypt text key);;
               ret (mkRequest "api" request_id
                      (VStr (aes_encrypt L text key)) p)
           end in
         modify_this (fun c => set_requests (requests c ++ [request]) c);;
         let* c := get_this in
         match socket c with
         | None => throw (TypeError "Cannot read properties of null")
         | Some s => emit (EEmit s "api" (message_of request))
         end;;
         ret (Ended p))
        (fun _ => ret (Ended p))
  end.

(** The next step of a call. *)
Definition advance (c : api_call) : M api_call :=
  match c with
  | NotBegun payload uuid => api_begin payload uuid
  | Waiting t => api_step t
  | Ended p => ret (Ended p)
  end.

End Steps.





(** ** Sequences of operations *)

(** What can happen to a connection: a call of one of its methods, or an
    event of its socket handled by one of the handlers. *)
Inductive action : Type :=
| DoReset
| DoSetAuth (authToken : AuthMsg)
| DoConnect (ident : option object) (ssl : bool) (port : value)
            (sock : option socket_handle)
| DoSendRequest (type : string) (payload : value) (uuid : string)
| DoLink (chain requestDetails : value) (privk : bytes)
         (uuid_next uuid_req : string)
| DoLinkResume (p : promise)
| GotConnect (ident : option object) (s : socket_handle) (uuid : string)
| GotAuthenticated (p : promise) (auth : AuthMsg)
| GotLink (m : LinkMsg)
| GotApi (m : ApiMsg)
| GotDisconnect
| GotConnectError.

Definition perform (L : Lib) (a : action) (w : World) : World :=
  match a with
  | DoReset => world_after (reset w)
  | DoSetAuth t => world_after (setAuth t w)
  | DoConnect i ssl port sock => world_after (connect i ssl port sock w)
  | DoSendRequest t pl u => world_after (sendRequest L t pl u w)
  | DoLink ch rd k u1 u2 => world_after (link_begin L ch rd k u1 u2 w)
  | DoLinkResume p => world_after (link_resume p w)
  | GotConnect i s u => world_after (on_connect i s u w)
  | GotAuthenticated p a => world_after (on_authenticated L p a w)
  | GotLink m => world_after (on_link L m w)
  | GotApi m => world_after (on_api L m w)
  | GotDisconnect => world_after (on_disconnect w)
  | GotConnectError => world_after (on_connect_error w)
  end.

Definition perform_all (L : Lib) (l : list action) (w : World) : World :=
  fold_left (fun w a => perform L a w) l w.

(** The [authenticated] event that resolves the promise [p]. *)
Definition authenticates (p : promise) (a : action) : bool :=
  match a with
  | GotAuthenticated q _ => Nat.eqb q p
  | _ => false
  end.

(** Every entry of the registry holds a promise that exists, and no two
    entries hold the same one. *)
Definition registry_ok (w : World) : Prop :=
  Forall (fun r => req_promise r < length (promises w)) (requests (this w))
  /\ NoDup (map req_promise (requests (this w))).

(** [x.id === wanted || x.id.toString() === wanted], where it does not
    throw. *)
Definition id_matches (x : Request) (wanted : value) : bool :=
  strict_eq (req_id x) wanted
  || match toString (req_id x) with
     | inr s => strict_eq (VStr s) wanted
     | inl _ => false
     end.

(** The promise [p] exists and no entry of the registry holds it. *)
Definition free_of (p : promise) (w : World) : Prop :=
  p < length (promises w) /\
  Forall (fun r => req_promise r <> p) (requests (this w)).


(** What one operation may do to the promises and to the registry, going
    from [w] to [w']: promises are only added; the registry stays, is
    emptied, or gains one entry that holds a promise made by this
    operation; and a promise that no entry holds keeps its state, unless
    the operation is the [authenticated] event for it ([by_event]). *)
Definition summary (by_event : promise -> bool) (w w' : World) : Prop :=
  length (promises w) <= length (promises w') /\
  (requests (this w') = requests (this w) \/
   requests (this w') = [] \/
   exists r, requests (this w') = requests (this w) ++ [r] /\
             req_promise r = length (promises w) /\
             length (promises w) < length (promises w')) /\
  (forall q, q < length (promises w) -> by_event q = false ->
     Forall (fun r => req_promise r <> q) (requests (this w)) ->
     promises w' !! q = promises w !! q).

(** [k in o] *)
Fixpoint obj_has (o : object) (k : string) : bool :=
  match o with
  | [] => false
  | (k', _) :: r => String.eqb k' k || obj_has r k
  end.

(** The identity that the link handler builds when it does not merge into
    an existing one. *)
Definition first_identity (c : BeetConnection) (pl : LinkPayload) : object :=
  [("apphash", appHash (cfg c)); ("identityhash", lp_identityhash pl);
   ("chain", lp_chain pl); ("appName", appName (cfg c));
   ("secret", secret c); ("next_id", next_identification c);
   ("requested", lp_requested pl)].

(** The builder with its list of public keys replaced. *)
Definition with_keys (ks : list value) (b : Builder) : Builder :=
  mkBuilder (tr_buffer b) (signed b) (Some ks) (operations b) (tr_object b).

Definition keys_of (b : Builder) : list value :=
  match signer_public_keys b with
  | None => []
  | Some ks => ks
  end.

(** A run of [add_signer] calls, given as pairs of private and public key;
    the first call that throws ends it. *)
Fixpoint add_signers (calls : list (value * value)) (b : Builder)
    : thrown + Builder :=
  match calls with
  | [] => inr b
  | (private_key, public_key) :: rest =>
      match add_signer private_key public_key b with
      | inl e => inl e
      | inr b' => add_signers rest b'
      end
  end.

(** ** Sample data for the further concrete runs *)

Module Scenario.

(** The [authenticated] message of a session without a link: it brings
    the public key of the wallet. *)
Definition token : AuthMsg :=
  mkAuthMsg (mkAuthPayload true false (VStr "PKHEX") VUndef).

(** The [authenticated] message for a stored link, with the account among
    the requested fields. *)
Definition relinked_token : AuthMsg :=
  mkAuthMsg
    (mkAuthPayload true true VUndef
       (VObj [("account", VObj [("name", VStr "alice")])])).


(** A finalized builder without signers. *)
Definition builder : Builder :=
  mkBuilder (VStr "buffer") (VBool false) None (VArr [VStr "transfer"])
    (VObj [("operations", VArr [VStr "transfer"])]).

Definition two_signers : list (value * value) :=
  [(VStr "inject_wif", VStr "BTS6pub1"); (VStr "inject_wif", VStr "BTS7pub2")].

Definition transaction_builder : PointOfInjection :=
  mkPointOfInjection true false false.

(** An encrypted answer to [id-a] that was encrypted with the key of
    another id, as after a counter that is out of step: the cipher of the
    sample library throws on it. The same with the error flag. *)
Definition stale_answer_a : ApiMsg :=
  mkApiMsg (VStr "id-a") false true (VStr "abcd#id-b|result").
Definition stale_error_a : ApiMsg :=
  mkApiMsg (VStr "id-a") true true (VStr "abcd#id-b|result").


(** [JSON.parse] as far as the runs below need it: of the texts it reads
    [null], [true], [false], [{}] and [[]], and the empty text is not JSON;
    null, booleans and numbers are parsed from their own text, and
    undefined is not JSON. *)
Definition parse (v : value) : option value :=
  match v with
  | VNull => Some VNull
  | VBool b => Some (VBool b)
  | VNum z => Some (VNum z)
  | VStr s =>
      if String.eqb s "null" then Some VNull
      else if String.eqb s "true" then Some (VBool true)
      else if String.eqb s "false" then Some (VBool false)
      else if String.eqb s "{}" then Some (VObj [])
      else if String.eqb s "[]" then Some (VArr [])
      else None
  | _ => None
  end.

End Scenario.

(** ** Basic facts about promises and the registry *)

Lemma settle_other p q st ps : q <> p -> settle p st ps !! q = ps !! q.
Proof.
  intros Hne. unfold settle.
  destruct (ps !! p) as [[| |]|]; try reflexivity.
  apply list_lookup_insert_ne. congruence.
Qed.

Lemma settle_pending p st ps :
  ps !! p = Some Pending -> settle p st ps !! p = Some st.
Proof.
  intros Hp. unfold settle. rewrite Hp.
  apply list_lookup_insert_eq. eapply lookup_lt_Some; eassumption.
Qed.

Lemma settle_settled_id p st ps :
  ps !! p <> Some Pending -> settle p st ps = ps.
Proof.
  intros Hp. unfold settle.
  destruct (ps !! p) as [[| |]|]; congruence.
Qed.

(** A settled promise keeps its settlement whatever is settled next. *)

(** A settled promise keeps its settlement whatever is settled next. *)
Lemma settle_keeps p q st st' ps :
  ps !! q = Some st' -> st' <> Pending -> settle p st ps !! q = Some st'.
Proof.
  intros Hq Hst. destruct (decide (q = p)) as [Heq|Hne].
  - subst q. rewrite settle_settled_id; [assumption|]. congruence.
  - rewrite settle_other; assumption.
Qed.

(** The two sides of the test in [find]: an entry whose id is the number 5
    answers to the string "5", and an entry whose id is [null] makes the
    search throw unless the wanted id is [null] itself. *)
Example find_request_by_text :
  find_request (VStr "5") [mkRequest "api" (VNum 5) VUndef 0]
  = inr (Some (mkRequest "api" (VNum 5) VUndef 0)).
Proof. reflexivity. Qed.

Example find_request_null_id :
  find_request (VStr "5") [mkRequest "api" VNull VUndef 0]
  = inl (TypeError "Cannot read properties of null").
Proof. reflexivity. Qed.

(** ** Proof tools *)

Ltac unfold_ops :=
  unfold link_begin, link_resume, sendRequest, sendRequest_executor,
    fetch_ids, on_api, on_link, on_authenticated, on_connect, on_disconnect,
    on_connect_error, connect, setAuth, reset, stored_identity,
    bind, try_catch, new_promise, get_this, modify_this, emit, ret, throw,
    resolve, reject, of_sum, lib_call in *.

(** Replace the world by its fields, so that every read of a field
    computes. *)
Ltac open_world w :=
  let c := fresh "c" in
  destruct w as [c ?ps];
  destruct c as [?cfg0 ?ident ?id0 ?next_id ?conn ?auth ?lnk ?otp0 ?reqs
                 ?sock ?sec ?bkey];
  cbn in *.

(** Split on the innermost test the computation is stuck on. *)
Ltac case_step :=
  match goal with
  | |- context [match ?x with _ => _ end] =>
      lazymatch x with
      | context [match _ with _ => _ end] => fail
      | _ => destruct x eqn:?
      end
  end.

Ltac run_cases := unfold_ops; cbn; repeat (case_step; cbn in *).

Ltac in_cases :=
  repeat match goal with
  | H : False |- _ => contradiction
  | H : In _ [] |- _ => contradiction
  | H : In _ (_ :: _) |- _ => destruct H as [H|H]
  | H : _ \/ _ |- _ => destruct H as [H|H]
  end.

(** A promise that is settled stays so through any number of [settle]. *)
Ltac keep_settled :=
  repeat first [ eassumption | apply settle_keeps; [|assumption] ].

(** Goals about [session_inv] once the flags are known. *)
Ltac inv_solve :=
  unfold session_inv in *; cbn in *;
  repeat match goal with
         | H : _ /\ _ |- _ => destruct H
         end;
  repeat split; intros; try discriminate; try reflexivity; auto.

(** ** reset *)

(** C10: [reset()] sets [connected], [authenticated] and [linked] to false
    and clears [identity], [socket], [otp] and the list of pending requests;
    every other field keeps its value, in particular [secret],
    [next_identification] and [beetkey]. The promises themselves are not
    touched and nothing is sent. *)
Theorem reset_frame (w : World) :
  let c := this w in
  let c' := this (world_after (reset w)) in
  (connected c' = false /\ authenticated c' = false /\ linked c' = false /\
   identity c' = None /\ socket c' = None /\ otp c' = None /\
   requests c' = []) /\
  (secret c' = secret c /\ next_identification c' = next_identification c /\
   beetkey c' = beetkey c /\ cfg c' = cfg c /\ id c' = id c) /\
  promises (world_after (reset w)) = promises w /\
  trace (reset w) = [] /\ outcome (reset w) = Return tt.
Proof. repeat split. Qed.

Lemma reset_world (w : World) :
  world_after (reset w) =
  mkWorld (mkBeetConnection (cfg (this w)) None (id (this w))
             (next_identification (this w)) false false false None [] None
             (secret (this w)) (beetkey (this w)))
          (promises w).
Proof. reflexivity. Qed.

(** ** sendRequest and fetch_ids *)

(** Without a channel the returned promise is rejected at once, nothing is
    registered and nothing is emitted. *)
Lemma sendRequest_without_channel (L : Lib) (w : World) (type : string)
    (payload : value) (uuid : string)
    (Hno : connected (this w) = false \/ socket (this w) = None) :
  sendRequest L type payload uuid w =
  mkRun (mkWorld (this w)
           (promises w ++
              [Rejected (AValue (VStr "No beeteos ws connection."))]))
        [] (Return (length (promises w))).
Proof.
  unfold_ops. cbn.
  assert (negb (connected (this w)) || is_null (socket (this w)) = true)
    as ->.
  { destruct Hno as [-> | ->]; cbn; [reflexivity|]. apply orb_true_r. }
  cbn. unfold settle.
  rewrite lookup_app_r by lia. rewrite Nat.sub_diag. cbn.
  rewrite insert_app_r_alt by lia. rewrite Nat.sub_diag. reflexivity.
Qed.

(** C9: a call of [sendRequest] without a channel (not connected, or no
    socket) returns a promise that is rejected with the not-connected text,
    and it emits nothing and registers nothing. A call with kind api on a
    session that has a channel but is not both authenticated and linked
    emits nothing and registers nothing either, but the promise it returns
    is left pending: [fetch_ids] throws inside the async executor, so
    neither [resolve] nor [reject] is called, and none of them is stored. *)
Theorem sendRequest_api_before_link_stays_pending (L : Lib) (w : World)
    (payload : value) (uuid : string) :
  (connected (this w) = false \/ socket (this w) = None ->
   forall type,
     sendRequest L type payload uuid w =
     mkRun (mkWorld (this w)
              (promises w ++
                 [Rejected (AValue (VStr "No beeteos ws connection."))]))
           [] (Return (length (promises w)))) /\
  (forall s,
     connected (this w) = true ->
     socket (this w) = Some s ->
     authenticated (this w) && linked (this w) = false ->
     sendRequest L "api" payload uuid w =
     mkRun (mkWorld (this w) (promises w ++ [Pending])) []
           (Return (length (promises w)))).
Proof.
  split.
  - intros Hno type. apply sendRequest_without_channel. assumption.
  - intros s Hconn Hsock Hlink. open_world w. subst.
    unfold_ops. cbn. rewrite Hlink. reflexivity.
Qed.

Lemma sendRequest_api_before_link_stays_pending_witness :
  let r := sendRequest Sample.lib "api" Sample.call "id-2"
             Sample.authenticated_world in
  let r0 := sendRequest Sample.lib "api" Sample.call "id-2"
              Sample.fresh_world in
  (connected Sample.authenticated_conn = true /\
   socket Sample.authenticated_conn = Some 7 /\
   authenticated Sample.authenticated_conn
     && linked Sample.authenticated_conn = false) /\
  (outcome r = Return 0 /\
   promises (world_after r) !! 0 = Some Pending /\
   trace r = [] /\
   requests (this (world_after r)) = []) /\
  connected (this Sample.fresh_world) = false /\
  (outcome r0 = Return 0 /\
   promises (world_after r0) !! 0 =
     Some (Rejected (AValue (VStr "No beeteos ws connection."))) /\
   trace r0 = [] /\
   requests (this (world_after r0)) = []).
Proof.
  cbn zeta.
  rewrite (proj2 (sendRequest_api_before_link_stays_pending Sample.lib
                    Sample.authenticated_world Sample.call "id-2")
             7 eq_refl eq_refl eq_refl).
  rewrite (proj1 (sendRequest_api_before_link_stays_pending Sample.lib
                    Sample.fresh_world Sample.call "id-2")
             (or_introl eq_refl) "api").
  repeat split.
Defined.

Lemma fetch_ids_draw (L : Lib) (w : World) (uuid h : string)
    (Hflags : connected (this w) && authenticated (this w)
              && linked (this w) = true)
    (Hhash : sha256 L (VStr uuid) = Some h) :
  fetch_ids L uuid w =
  mkRun (mkWorld (set_next_identification (VStr uuid) (this w)) (promises w))
        [] (Return (mkIds (next_identification (this w)) h)).
Proof.
  unfold_ops. cbn. rewrite Hflags. cbn. rewrite Hhash. reflexivity.
Qed.

Lemma link_begin_emits_hash (L : Lib) (w : World) (chain rd : value)
    (privk : bytes) (u1 u2 : string) (s : nat) (name : string)
    (m : Message) :
  In (EEmit s name m) (trace (link_begin L chain rd privk u1 u2 w)) ->
  exists h,
    sha256 L (next_identification
                (this (world_after (link_begin L chain rd privk u1 u2 w))))
      = Some h /\
    get_prop (msg_payload m) "next_hash" = inr (VStr h).
Proof.
  open_world w. run_cases; intros HIn; in_cases; simplify_eq; eauto.
Qed.

Lemma link_begin_awaits_emitted (L : Lib) (w : World) (chain rd : value)
    (privk : bytes) (u1 u2 : string) (s : nat) (p : nat) :
  socket (this w) = Some s ->
  outcome (link_begin L chain rd privk u1 u2 w) = Return (LinkAwaits p) ->
  exists name m,
    In (EEmit s name m) (trace (link_begin L chain rd privk u1 u2 w)).
Proof.
  open_world w. intros ->. destruct conn.
  - run_cases; intros HO; simplify_eq; do 2 eexists;
      repeat (first [left; reflexivity | right]).
  - run_cases. discriminate.
Qed.

(** C7: when [fetch_ids] draws an id (the session is connected,
    authenticated and linked), it returns the stored [next_identification]
    as the request id, stores the new random id as the new
    [next_identification], and returns the hash of that new id as
    [next_hash]. Likewise every message [link] sends, for a link or a
    relink, carries as [next_hash] the hash of the [next_identification]
    that this call of [link] set; and a call of [link] that reaches its
    [await] on a connection with a socket has sent such a message. *)
Theorem hash_chain_cursor (L : Lib) (w : World) (uuid h : string)
    (Hflags : connected (this w) && authenticated (this w)
              && linked (this w) = true)
    (Hhash : sha256 L (VStr uuid) = Some h) :
  fetch_ids L uuid w =
    mkRun (mkWorld (set_next_identification (VStr uuid) (this w))
                   (promises w))
          [] (Return (mkIds (next_identification (this w)) h)) /\
  (forall (w2 : World) (chain rd : value) (privk : bytes) (u1 u2 : string),
     let r := link_begin L chain rd privk u1 u2 w2 in
     (forall s name m, In (EEmit s name m) (trace r) ->
        exists h',
          sha256 L (next_identification (this (world_after r))) = Some h' /\
          get_prop (msg_payload m) "next_hash" = inr (VStr h')) /\
     (forall s p, socket (this w2) = Some s ->
        outcome r = Return (LinkAwaits p) ->
        exists name m, In (EEmit s name m) (trace r))).
Proof.
  split.
  - apply fetch_ids_draw; assumption.
  - intros w2 chain rd privk u1 u2 r. split.
    + intros s name m. apply link_begin_emits_hash.
    + intros s p. apply link_begin_awaits_emitted.
Qed.

Lemma hash_chain_cursor_witness :
  connected Sample.linked_conn && authenticated Sample.linked_conn
    && linked Sample.linked_conn = true /\
  sha256 Sample.lib (VStr "id-2") = Some "sha256:id-2" /\
  fetch_ids Sample.lib "id-2" Sample.linked_world =
    mkRun (mkWorld (set_next_identification (VStr "id-2") Sample.linked_conn)
                   [Pending; Pending])
          [] (Return (mkIds (VStr "id-1") "sha256:id-2")) /\
  exists name m,
    In (EEmit 7 name m)
       (trace (link_begin Sample.lib (VStr "BTS") (VArr [VStr "account"])
                 [] "n1" "r1" Sample.authenticated_world)) /\
    get_prop (msg_payload m) "next_hash" = inr (VStr "sha256:n1").
Proof.
  pose proof (hash_chain_cursor Sample.lib Sample.linked_world
                "id-2" "sha256:id-2" eq_refl eq_refl) as [Hdraw Hlink].
  split; [reflexivity|]. split; [reflexivity|].
  split; [exact Hdraw|].
  specialize (Hlink Sample.authenticated_world (VStr "BTS")
                (VArr [VStr "account"]) [] "n1" "r1").
  destruct Hlink as [Hhash Hsent].
  destruct (Hsent 7 0 eq_refl eq_refl) as (name & m & Hin).
  exists name, m. split; [exact Hin|].
  destruct (Hhash 7 name m Hin) as (h' & Hh' & Hp).
  vm_compute in Hh'. injection Hh' as <-. exact Hp.
Defined.

(** ** link *)

(** C6: a call of [link] on a connected session whose stored identity has an
    identityhash takes [secret] and [next_identification] from the stored
    identity, performs no key agreement, and whatever it sends is a
    [relinkRequest] whose payload holds the chain, the request, the next
    hash and the stored identityhash, and no pubkey; with a socket and a
    hash it sends exactly that one message and awaits its answer. *)
Theorem relink_reuses_stored_identity (L : Lib) (w : World)
    (chain rd : value) (privk : bytes) (u1 u2 : string) (i : object)
    (Hconn : connected (this w) = true)
    (Hid : stored_identity (this w) = Some i) :
  let r := link_begin L chain rd privk u1 u2 w in
  let c' := this (world_after r) in
  secret c' = obj_get i "secret" /\
  next_identification c' = obj_get i "next_id" /\
  existsb is_key_agreement (trace r) = false /\
  (forall s name m, In (EEmit s name m) (trace r) ->
     name = "relinkRequest" /\ msg_type m = "relinkRequest" /\
     exists h, sha256 L (obj_get i "next_id") = Some h /\
               msg_payload m = relink_payload chain rd h i) /\
  (forall s h, socket (this w) = Some s ->
     sha256 L (obj_get i "next_id") = Some h ->
     trace r =
       [EEmit s "relinkRequest"
          (mkMessage "relinkRequest" (VStr u2) (relink_payload chain rd h i))]
     /\ outcome r = Return (LinkAwaits (length (promises w)))).
Proof.
  open_world w. unfold stored_identity in Hid; cbn in Hid.
  subst. destruct ident as [i0|]; [|discriminate].
  destruct (truthy (obj_get i0 "identityhash")) eqn:Ht; [|discriminate].
  injection Hid as ->.
  unfold_ops; cbn. rewrite ?Ht.
  destruct (sha256 L (obj_get i "next_id")) as [h|] eqn:Hh;
    cbn; rewrite ?Ht; cbn.
  - destruct sock as [s|]; cbn.
    + repeat split; try reflexivity; intros; in_cases; simplify_eq; cbn;
        eauto.
    + repeat split; intros; try reflexivity; try contradiction;
        discriminate.
  - repeat split; intros; try reflexivity; try contradiction; discriminate.
Qed.

Lemma relink_reuses_stored_identity_witness :
  connected Sample.linked_conn = true /\
  stored_identity Sample.linked_conn = Some Sample.stored /\
  let r := link_begin Sample.lib (VStr "BTS") (VArr [VStr "account"])
             [] "n1" "r1" Sample.linked_world in
  secret (this (world_after r)) = VStr "abcd" /\
  next_identification (this (world_after r)) = VStr "id-0" /\
  trace r =
    [EEmit 7 "relinkRequest"
       (mkMessage "relinkRequest" (VStr "r1")
          (VObj [("chain", VStr "BTS"); ("request", VArr [VStr "account"]);
                 ("next_hash", VStr "sha256:id-0");
                 ("identityhash", VStr "IH")]))].
Proof.
  pose proof (relink_reuses_stored_identity Sample.lib Sample.linked_world
                (VStr "BTS") (VArr [VStr "account"]) [] "n1" "r1"
                Sample.stored eq_refl eq_refl) as (Hs & Hn & _ & _ & Hsent).
  split; [reflexivity|]. split; [reflexivity|].
  split; [exact Hs|]. split; [exact Hn|].
  exact (proj1 (Hsent 7 "sha256:id-0" eq_refl eq_refl)).
Defined.

(** C3: when the remote declines a link or relink attempt (the link
    response carries an error and matches the pending request), the pending
    promise is rejected with the response, [link] takes its catch branch,
    clears the identity and returns undefined. The handler, however, goes on
    after the rejection: it copies the flags of the response and installs a
    new [otp] from [secret], and that [otp] is still there when [link] has
    returned. *)
Theorem rejected_link_establishes_cipher (L : Lib) (w : World)
    (m : LinkMsg) (r : Request) (sec : bytes)
    (Hfind : find_request (link_id m) (requests (this w)) = inr (Some r))
    (Hpend : promises w !! req_promise r = Some Pending)
    (Herr : link_error m = true)
    (Hsec : Secret_fromHex L (secret (this w)) = Some sec) :
  let w1 := world_after (on_link L m w) in
  let r2 := link_resume (req_promise r) w1 in
  promises w1 !! req_promise r = Some (Rejected (ALink m)) /\
  outcome r2 = Return LinkUndefined /\
  identity (this (world_after r2)) = None /\
  otp (this (world_after r2)) = Some (new_HOTP sec) /\
  linked (this (world_after r2)) = lp_link (link_payload m).
Proof.
  assert (promises (world_after (on_link L m w)) !! req_promise r
          = Some (Rejected (ALink m))
          /\ otp (this (world_after (on_link L m w))) = Some (new_HOTP sec)
          /\ linked (this (world_after (on_link L m w)))
             = lp_link (link_payload m)) as (Hp & Ho & Hl).
  { open_world w. destruct m as [mid merr mpl]. cbn in *. subst.
    unfold_ops. cbn. rewrite Hfind. cbn. rewrite Hsec. cbn.
    split; [|split; reflexivity].
    rewrite settle_settled_id.
    - apply settle_pending. assumption.
    - rewrite settle_pending by assumption. discriminate. }
  cbn zeta. split; [exact Hp|].
  unfold link_resume. rewrite Hp. cbn.
  repeat split; assumption.
Qed.

Lemma rejected_link_establishes_cipher_witness :
  let w := world_after Sample.first_link in
  let w1 := world_after (on_link Sample.lib Sample.link_rejection w) in
  let r2 := link_resume 0 w1 in
  (outcome Sample.first_link = Return (LinkAwaits 0) /\
   otp (this w) = None /\
   find_request (VStr "r1") (requests (this w)) =
     inr (Some (mkRequest "linkRequest" (VStr "r1")
                  (VObj [("chain", VStr "BTS");
                         ("request", VArr [VStr "account"]);
                         ("pubkey", VStr "1k");
                         ("next_hash", VStr "sha256:n1")]) 0)) /\
   promises w !! 0 = Some Pending /\
   link_error Sample.link_rejection = true /\
   Secret_fromHex Sample.lib (secret (this w)) =
     Some (String.list_byte_of_string "k1PKHEX")) /\
  promises w1 !! 0 = Some (Rejected (ALink Sample.link_rejection)) /\
  outcome r2 = Return LinkUndefined /\
  identity (this (world_after r2)) = None /\
  otp (this (world_after r2)) =
    Some (new_HOTP (String.list_byte_of_string "k1PKHEX")) /\
  linked (this (world_after r2)) = false.
Proof.
  cbn zeta. split; [repeat split|].
  exact (rejected_link_establishes_cipher Sample.lib
           (world_after Sample.first_link) Sample.link_rejection
           (mkRequest "linkRequest" (VStr "r1")
              (VObj [("chain", VStr "BTS");
                     ("request", VArr [VStr "account"]);
                     ("pubkey", VStr "1k");
                     ("next_hash", VStr "sha256:n1")]) 0)
           (String.list_byte_of_string "k1PKHEX")
           eq_refl eq_refl eq_refl eq_refl).
Defined.

(** ** The response handlers and the registry *)

Lemma on_link_requests (L : Lib) (w : World) (m : LinkMsg) :
  requests (this (world_after (on_link L m w))) = requests (this w).
Proof. open_world w. run_cases; reflexivity. Qed.

Lemma on_api_requests (L : Lib) (w : World) (m : ApiMsg) :
  requests (this (world_after (on_api L m w))) = requests (this w) \/
  (api_error m = true /\ requests (this (world_after (on_api L m w))) = []).
Proof.
  open_world w. destruct m as [mid merr menc mpl].
  run_cases; auto.
Qed.

Lemma on_api_requests_no_error (L : Lib) (w : World) (m : ApiMsg) :
  api_error m = false ->
  requests (this (world_after (on_api L m w))) = requests (this w).
Proof.
  intros He. destruct (on_api_requests L w m) as [H|[H _]]; [exact H|].
  congruence.
Qed.

Lemma on_api_keeps_settled (L : Lib) (w : World) (m : ApiMsg) (p : nat)
    (st : promise_state) :
  promises w !! p = Some st -> st <> Pending ->
  promises (world_after (on_api L m w)) !! p = Some st.
Proof.
  open_world w. destruct m as [mid merr menc mpl]. intros Hp Hst.
  run_cases; keep_settled.
Qed.

Lemma on_link_keeps_settled (L : Lib) (w : World) (m : LinkMsg) (p : nat)
    (st : promise_state) :
  promises w !! p = Some st -> st <> Pending ->
  promises (world_after (on_link L m w)) !! p = Some st.
Proof.
  open_world w. intros Hp Hst.
  run_cases; keep_settled.
Qed.

(** C1 as the code has it: handling a response does not remove the entry
    it matched. The link handler never changes the registry; the api handler
    changes it only through the reset of an error response, which empties
    it. So after a response without error a second response with the same
    id finds the same entry again. What happens once is the settlement: a
    promise that is already resolved or rejected keeps its state through
    every later response. *)
Theorem responses_keep_registry_entries (L : Lib) (w : World) :
  (forall m : LinkMsg,
     requests (this (world_after (on_link L m w))) = requests (this w)) /\
  (forall m : ApiMsg,
     requests (this (world_after (on_api L m w))) = requests (this w) \/
     (api_error m = true /\
      requests (this (world_after (on_api L m w))) = [])) /\
  (forall (m : ApiMsg) (r : Request),
     api_error m = false ->
     find_request (api_id m) (requests (this w)) = inr (Some r) ->
     find_request (api_id m) (requests (this (world_after (on_api L m w))))
       = inr (Some r)) /\
  (forall (p : nat) (st : promise_state),
     promises w !! p = Some st -> st <> Pending ->
     (forall m : ApiMsg,
        promises (world_after (on_api L m w)) !! p = Some st) /\
     (forall m : LinkMsg,
        promises (world_after (on_link L m w)) !! p = Some st)).
Proof.
  split; [|split; [|split]].
  - intros m. apply on_link_requests.
  - intros m. apply on_api_requests.
  - intros m r He Hf. rewrite on_api_requests_no_error; assumption.
  - intros p st Hp Hst. split; intros m.
    + apply on_api_keeps_settled; assumption.
    + apply on_link_keeps_settled; assumption.
Qed.

(** The answer to [id-a] is handled, and a second response with the same id
    finds the entry again; its promise keeps the first answer. *)
Lemma responses_keep_registry_entries_witness :
  let w1 := world_after (on_api Sample.lib Sample.answer_a
                           Sample.linked_world) in
  api_error Sample.answer_a = false /\
  find_request (VStr "id-a") (requests Sample.linked_conn)
    = inr (Some Sample.request_a) /\
  promises w1 !! 0 = Some (Resolved (AValue (VStr "result"))) /\
  Resolved (AValue (VStr "result")) <> Pending /\
  find_request (VStr "id-a") (requests (this w1))
    = inr (Some Sample.request_a) /\
  promises (world_after (on_api Sample.lib Sample.fatal_for_a w1)) !! 0
    = Some (Resolved (AValue (VStr "result"))).
Proof.
  cbn zeta.
  assert (Resolved (AValue (VStr "result")) <> Pending) as Hne
    by discriminate.
  split; [reflexivity|]. split; [reflexivity|]. split; [reflexivity|].
  split; [exact Hne|]. split.
  - exact (proj1 (proj2 (proj2
             (responses_keep_registry_entries Sample.lib
                Sample.linked_world)))
             Sample.answer_a Sample.request_a eq_refl eq_refl).
  - exact (proj1 (proj2 (proj2 (proj2
             (responses_keep_registry_entries Sample.lib
                (world_after (on_api Sample.lib Sample.answer_a
                                Sample.linked_world)))))
             0 (Resolved (AValue (VStr "result"))) eq_refl Hne)
             Sample.fatal_for_a).
Defined.

(** Against C1 as stated: the entry of [id-a] is still in the registry
    after its response was handled, and the entry of the link request [r1]
    is still there after the link response was handled. *)
Lemma answered_request_is_found_again :
  let w1 := world_after (on_api Sample.lib Sample.answer_a
                           Sample.linked_world) in
  let w2 := world_after (on_link Sample.lib Sample.link_approval
                           (world_after Sample.first_link)) in
  (find_request (VStr "id-a") (requests Sample.linked_conn)
     = inr (Some Sample.request_a) /\
   promises w1 !! 0 = Some (Resolved (AValue (VStr "result"))) /\
   find_request (VStr "id-a") (requests (this w1))
     = inr (Some Sample.request_a)) /\
  (promises w2 !! 0 = Some (Resolved (ALink Sample.link_approval)) /\
   exists r, find_request (VStr "r1") (requests (this w2)) = inr (Some r)).
Proof.
  cbn zeta. split.
  - repeat split.
  - split; [reflexivity|]. eexists. vm_compute. reflexivity.
Qed.

(** C4 as the code has it: an api response with an error of code 2 whose id
    matches an entry of the registry resets the session: [connected],
    [authenticated] and [linked] are false, identity, otp and socket are
    gone and the registry is empty, so no later response finds an entry and
    every later response leaves the world as it is. The promise of the
    matched entry is rejected with the error payload when it was still
    pending; all other promises are left as they were. *)
Theorem api_fatal_error_resets (L : Lib) (w : World) (msg : ApiMsg)
    (r : Request) (code : value)
    (Hfind : find_request (api_id msg) (requests (this w)) = inr (Some r))
    (Herr : api_error msg = true)
    (Hcode : get_prop (api_payload msg) "code" = inr code)
    (Htwo : loose_eq_2 code = true) :
  let w' := world_after (on_api L msg w) in
  let c' := this w' in
  (connected c' = false /\ authenticated c' = false /\ linked c' = false /\
   identity c' = None /\ otp c' = None /\ socket c' = None) /\
  requests c' = [] /\
  (forall m, world_after (on_api L m w') = w') /\
  (forall m, world_after (on_link L m w') = w') /\
  (promises w !! req_promise r = Some Pending ->
   promises w' !! req_promise r =
     Some (Rejected (AValue (api_payload msg)))) /\
  (forall q, q <> req_promise r -> promises w' !! q = promises w !! q).
Proof.
  open_world w. destruct msg as [mid merr menc mpl]. cbn in *. subst.
  unfold_ops. cbn. rewrite Hfind. cbn. rewrite Hcode. cbn. rewrite Htwo. cbn.
  destruct menc; cbn.
  - repeat split.
    + intros Hp. apply settle_pending. assumption.
    + intros q Hq. rewrite settle_other by assumption. reflexivity.
  - repeat split.
    + intros Hp. rewrite settle_settled_id.
      * apply settle_pending. assumption.
      * rewrite settle_pending by assumption. discriminate.
    + intros q Hq. rewrite !settle_other by assumption. reflexivity.
Qed.

Lemma api_fatal_error_resets_witness :
  let w' := world_after (on_api Sample.lib Sample.fatal_for_a
                           Sample.linked_world) in
  find_request (VStr "id-a") (requests Sample.linked_conn)
    = inr (Some Sample.request_a) /\
  api_error Sample.fatal_for_a = true /\
  get_prop Sample.fatal_payload "code" = inr (VNum 2) /\
  loose_eq_2 (VNum 2) = true /\
  linked (this w') = false /\
  requests (this w') = [] /\
  promises w' !! 0 = Some (Rejected (AValue Sample.fatal_payload)) /\
  promises w' !! 1 = Some Pending.
Proof.
  pose proof (api_fatal_error_resets Sample.lib Sample.linked_world
                Sample.fatal_for_a Sample.request_a (VNum 2)
                eq_refl eq_refl eq_refl eq_refl)
    as ((_ & _ & Hl & _) & Hr & _ & _ & Hp & Ho).
  cbn zeta. do 4 (split; [reflexivity|]).
  split; [exact Hl|]. split; [exact Hr|]. split.
  - exact (Hp eq_refl).
  - rewrite (Ho 1); [reflexivity|]. discriminate.
Defined.

(** Against C4 as stated: an error response with code 2 whose id matches no
    entry is dropped; the session stays connected, authenticated and
    linked, and the world is as before. *)
Lemma unmatched_fatal_error_is_dropped :
  api_error Sample.fatal_unmatched = true /\
  get_prop (api_payload Sample.fatal_unmatched) "code" = inr (VNum 2) /\
  loose_eq_2 (VNum 2) = true /\
  world_after (on_api Sample.lib Sample.fatal_unmatched Sample.linked_world)
    = Sample.linked_world /\
  linked Sample.linked_conn = true /\
  is_null (otp Sample.linked_conn) = false /\
  requests Sample.linked_conn = [Sample.request_a; Sample.request_b].
Proof. repeat split. Qed.

(** C8 as the code has it, for an encrypted api response that matches an
    entry of the registry. Without the error flag, when the decryption
    throws, the promise of the entry is rejected with the thrown error if
    it was still pending and keeps its state if it was settled; every
    other promise is left as it was, and the connection changes in the
    counter of its otp only, so [linked] and the other flags keep their
    values, there is no reset, and the registry is the same. With the
    error flag the promise has been rejected with the payload of the
    response before the decryption is tried, so the error of the
    decryption never reaches the caller, and a code 2 resets the session.
    A decryption that returns a text without throwing, whatever the text,
    is no failure for the handler: the promise is resolved with it. *)
Theorem decryption_failure_rejects_one_request (L : Lib) (w : World)
    (msg : ApiMsg) (r : Request) (h : HOTP)
    (Hfind : find_request (api_id msg) (requests (this w)) = inr (Some r))
    (Henc : api_encrypted msg = true)
    (Hotp : otp (this w) = Some h) :
  let w' := world_after (on_api L msg w) in
  let key := HOTP_generate L (set_counter (api_id msg) h) in
  let counted := set_otp (Some (set_counter (api_id msg) h)) (this w) in
  (api_error msg = false ->
   aes_decrypt L (api_payload msg) key = None ->
   (promises w !! req_promise r = Some Pending ->
    promises w' !! req_promise r =
      Some (Rejected (AExn (LibError "aes.decrypt")))) /\
   (forall st, promises w !! req_promise r = Some st -> st <> Pending ->
    promises w' !! req_promise r = Some st) /\
   (forall q, q <> req_promise r -> promises w' !! q = promises w !! q) /\
   this w' = counted /\
   (linked (this w') = linked (this w) /\
    authenticated (this w') = authenticated (this w) /\
    connected (this w') = connected (this w) /\
    identity (this w') = identity (this w) /\
    socket (this w') = socket (this w)) /\
   requests (this w') = requests (this w)) /\
  (api_error msg = true ->
   forall code, get_prop (api_payload msg) "code" = inr code ->
   (promises w !! req_promise r = Some Pending ->
    promises w' !! req_promise r =
      Some (Rejected (AValue (api_payload msg)))) /\
   (forall q, q <> req_promise r -> promises w' !! q = promises w !! q) /\
   (loose_eq_2 code = false -> this w' = counted) /\
   (loose_eq_2 code = true ->
    linked (this w') = false /\ otp (this w') = None /\
    requests (this w') = [])) /\
  (api_error msg = false ->
   forall text, aes_decrypt L (api_payload msg) key = Some text ->
   (promises w !! req_promise r = Some Pending ->
    promises w' !! req_promise r = Some (Resolved (AValue (VStr text)))) /\
   (forall q, q <> req_promise r -> promises w' !! q = promises w !! q) /\
   this w' = counted).
Proof.
  open_world w. destruct msg as [mid merr menc mpl]. cbn in *. subst.
  split; [|split].
  - intros -> Hfail. unfold_ops. cbn. rewrite Hfind. cbn. rewrite Hfail.
    cbn. repeat split.
    + intros Hpend. rewrite settle_settled_id.
      * apply settle_pending. assumption.
      * rewrite settle_pending by assumption. discriminate.
    + intros st Hst Hne.
      apply settle_keeps; [|assumption]. apply settle_keeps; assumption.
    + intros q Hq. rewrite !settle_other by assumption. reflexivity.
  - intros -> code Hcode. unfold_ops. cbn. rewrite Hfind. cbn.
    rewrite Hcode. cbn. destruct (loose_eq_2 code) eqn:Htwo; cbn.
    + split; [|split; [|split; [discriminate|repeat split]]].
      * intros Hpend. apply settle_pending. assumption.
      * intros q Hq. rewrite settle_other by assumption. reflexivity.
    + destruct (aes_decrypt L mpl
                  (HOTP_generate L (set_counter mid h))) eqn:Hd; cbn.
      all: split; [|split; [|split; [reflexivity|discriminate]]].
      all: try (intros q Hq; rewrite !settle_other by assumption;
                reflexivity).
      all: intros Hpend;
        repeat first [ apply settle_pending; assumption
                     | apply settle_keeps; [|discriminate] ].
  - intros -> text Hd. unfold_ops. cbn. rewrite Hfind. cbn. rewrite Hd.
    cbn. repeat split.
    + intros Hpend. apply settle_pending. assumption.
    + intros q Hq. rewrite !settle_other by assumption. reflexivity.
Qed.

Lemma decryption_failure_rejects_one_request_witness :
  let w' := world_after (on_api Sample.lib Scenario.stale_answer_a
                           Sample.linked_world) in
  let w2 := world_after (on_api Sample.lib Sample.encrypted_answer_a
                           Sample.linked_world) in
  let key :=
    HOTP_generate Sample.lib (set_counter (VStr "id-a") Sample.the_otp) in
  find_request (VStr "id-a") (requests Sample.linked_conn)
    = inr (Some Sample.request_a) /\
  api_encrypted Scenario.stale_answer_a = true /\
  otp Sample.linked_conn = Some Sample.the_otp /\
  api_error Scenario.stale_answer_a = false /\
  aes_decrypt Sample.lib (VStr "abcd#id-b|result") key = None /\
  promises Sample.linked_world !! 0 = Some Pending /\
  promises w' !! 0 = Some (Rejected (AExn (LibError "aes.decrypt"))) /\
  promises w' !! 1 = Some Pending /\
  linked (this w') = true /\
  requests (this w') = [Sample.request_a; Sample.request_b] /\
  aes_decrypt Sample.lib (VStr "abcd#id-a|result") key = Some "result" /\
  promises w2 !! 0 = Some (Resolved (AValue (VStr "result"))).
Proof.
  pose proof (decryption_failure_rejects_one_request Sample.lib
                Sample.linked_world Scenario.stale_answer_a
                Sample.request_a Sample.the_otp eq_refl eq_refl eq_refl)
    as (Hthrows & _ & _).
  destruct (Hthrows eq_refl eq_refl) as (Hp & _ & Ho & _ & (Hl & _) & Hr).
  pose proof (decryption_failure_rejects_one_request Sample.lib
                Sample.linked_world Sample.encrypted_answer_a
                Sample.request_a Sample.the_otp eq_refl eq_refl eq_refl)
    as (_ & _ & Htext).
  destruct (Htext eq_refl "result" eq_refl) as (Hres & _).
  cbn zeta. do 6 (split; [reflexivity|]).
  split; [exact (Hp eq_refl)|]. split.
  - rewrite (Ho 1); [reflexivity|]. discriminate.
  - split; [exact Hl|]. split; [exact Hr|]. split; [reflexivity|].
    exact (Hres eq_refl).
Defined.

(** Against C8 as stated: an encrypted response with the error flag whose
    decryption throws. The promise of the matched request was pending and
    is rejected with the payload of the response, not with the error of
    the decryption. *)
Lemma decryption_error_is_lost_after_error_flag :
  let w' := world_after (on_api Sample.lib Scenario.stale_error_a
                           Sample.linked_world) in
  api_encrypted Scenario.stale_error_a = true /\
  find_request (api_id Scenario.stale_error_a) (requests Sample.linked_conn)
    = inr (Some Sample.request_a) /\
  promises Sample.linked_world !! 0 = Some Pending /\
  aes_decrypt Sample.lib (api_payload Scenario.stale_error_a)
    (HOTP_generate Sample.lib (set_counter (VStr "id-a") Sample.the_otp))
    = None /\
  promises w' !! 0 = Some (Rejected (AValue (VStr "abcd#id-b|result"))) /\
  promises w' !! 0 <> Some (Rejected (AExn (LibError "aes.decrypt"))) /\
  linked (this w') = true.
Proof. cbn zeta. repeat split. discriminate. Qed.

(** ** The session invariant *)

Lemma reset_inv (w : World) : session_inv (this (world_after (reset w))).
Proof. inv_solve. Qed.

Lemma connect_inv (w : World) ident ssl port sock :
  session_inv (this w) ->
  session_inv (this (world_after (connect ident ssl port sock w))).
Proof. open_world w. intros H. run_cases; inv_solve. Qed.

Lemma on_connect_inv (w : World) ident s uuid :
  session_inv (this w) ->
  session_inv (this (world_after (on_connect ident s uuid w))).
Proof. open_world w. intros H. run_cases; inv_solve. Qed.

Lemma sendRequest_inv L (w : World) type payload uuid :
  session_inv (this w) ->
  session_inv (this (world_after (sendRequest L type payload uuid w))).
Proof.
  open_world w. intros H. destruct conn, auth, lnk; run_cases; inv_solve.
Qed.

Lemma link_begin_inv L (w : World) chain rd privk u1 u2 :
  session_inv (this w) ->
  session_inv (this (world_after (link_begin L chain rd privk u1 u2 w))).
Proof.
  open_world w. intros H. destruct conn; run_cases; inv_solve.
Qed.

Lemma link_resume_inv (w : World) p :
  session_inv (this w) ->
  session_inv (this (world_after (link_resume p w))).
Proof. open_world w. intros H. run_cases; inv_solve. Qed.

Lemma on_api_inv L (w : World) m :
  session_inv (this w) ->
  session_inv (this (world_after (on_api L m w))).
Proof.
  open_world w. destruct m as [mid merr menc mpl]. intros H.
  run_cases; inv_solve.
Qed.

Lemma on_connect_error_inv (w : World) :
  session_inv (this w) ->
  session_inv (this (world_after (on_connect_error w))).
Proof. open_world w. intros H. run_cases; inv_solve. Qed.

Lemma setAuth_inv (w : World) (a : AuthMsg) :
  session_inv (this (world_after (setAuth a w))) <->
  (ap_link (auth_payload a) = true ->
   ap_authenticate (auth_payload a) = true) /\
  (ap_authenticate (auth_payload a) = true -> connected (this w) = true) /\
  (is_null (otp (this w)) = false -> ap_link (auth_payload a) = true).
Proof.
  open_world w. destruct a as [[aa al ak ar]]. cbn.
  destruct al; run_cases; unfold session_inv; cbn; tauto.
Qed.

Lemma on_disconnect_inv (w : World) :
  session_inv (this w) ->
  (session_inv (this (world_after (on_disconnect w))) <->
   authenticated (this w) = false).
Proof.
  open_world w. unfold session_inv. cbn.
  destruct auth, conn, lnk, otp0; cbn; intuition congruence.
Qed.

Lemma on_authenticated_inv L (w : World) p (a : AuthMsg) :
  session_inv (this w) ->
  ap_link (auth_payload a) = false \/ linked (this w) = true ->
  session_inv (this (world_after (on_authenticated L p a w))).
Proof.
  open_world w. destruct a as [[aa al ak ar]]. cbn. intros H [->| ->];
  run_cases; inv_solve.
Qed.

Lemma on_link_inv L (w : World) (m : LinkMsg) :
  session_inv (this w) ->
  (find_request (link_id m) (requests (this w)) = inr None \/
   (lp_link (link_payload m) = true /\
    lp_authenticate (link_payload m) = true /\ connected (this w) = true)) ->
  session_inv (this (world_after (on_link L m w))).
Proof.
  open_world w. destruct m as [mid merr [a b c d e f g]]. cbn.
  intros H [Hn|(-> & -> & ->)].
  - unfold_ops. cbn. rewrite Hn. cbn. assumption.
  - run_cases; inv_solve.
Qed.

(** C2 as the code has it. From a state that satisfies the session
    invariant, [reset], [connect], the connect event, [sendRequest], [link]
    (up to and after its await), the api handler and the connect-error
    handlers lead to a state that satisfies it. The other four operations
    write flags without looking at the rest: after [setAuth] the invariant
    holds exactly when the flags of the token satisfy it together with the
    untouched [connected] and [otp]; the authenticated handler preserves it
    when the message reports no link or the session is linked already; the
    link handler preserves it when no entry matches, or when the response
    reports link and authenticate and the session is connected; after the
    disconnect handler it holds exactly when the session was not
    authenticated. *)
Theorem session_invariant_preservation (L : Lib) (w : World)
    (Hinv : session_inv (this w)) :
  session_inv (this (world_after (reset w))) /\
  (forall ident ssl port sock,
     session_inv (this (world_after (connect ident ssl port sock w)))) /\
  (forall ident s uuid,
     session_inv (this (world_after (on_connect ident s uuid w)))) /\
  (forall type payload uuid,
     session_inv (this (world_after (sendRequest L type payload uuid w)))) /\
  (forall chain rd privk u1 u2,
     session_inv
       (this (world_after (link_begin L chain rd privk u1 u2 w)))) /\
  (forall p, session_inv (this (world_after (link_resume p w)))) /\
  (forall m, session_inv (this (world_after (on_api L m w)))) /\
  session_inv (this (world_after (on_connect_error w))) /\
  (forall a,
     session_inv (this (world_after (setAuth a w))) <->
     (ap_link (auth_payload a) = true ->
      ap_authenticate (auth_payload a) = true) /\
     (ap_authenticate (auth_payload a) = true ->
      connected (this w) = true) /\
     (is_null (otp (this w)) = false ->
      ap_link (auth_payload a) = true)) /\
  (forall p a,
     ap_link (auth_payload a) = false \/ linked (this w) = true ->
     session_inv (this (world_after (on_authenticated L p a w)))) /\
  (forall m,
     find_request (link_id m) (requests (this w)) = inr None \/
     (lp_link (link_payload m) = true /\
      lp_authenticate (link_payload m) = true /\
      connected (this w) = true) ->
     session_inv (this (world_after (on_link L m w)))) /\
  (session_inv (this (world_after (on_disconnect w))) <->
   authenticated (this w) = false).
Proof.
  repeat match goal with |- _ /\ _ => split end.
  - apply reset_inv.
  - intros. apply connect_inv. assumption.
  - intros. apply on_connect_inv. assumption.
  - intros. apply sendRequest_inv. assumption.
  - intros. apply link_begin_inv. assumption.
  - intros. apply link_resume_inv. assumption.
  - intros. apply on_api_inv. assumption.
  - apply on_connect_error_inv. assumption.
  - intros. apply setAuth_inv.
  - intros. apply on_authenticated_inv; assumption.
  - intros. apply on_link_inv; assumption.
  - apply on_disconnect_inv. assumption.
Qed.

Lemma session_invariant_preservation_witness :
  session_inv (this Sample.linked_world) /\
  session_inv
    (this (world_after (sendRequest Sample.lib "api" Sample.call "id-2"
                          Sample.linked_world))) /\
  session_inv
    (this (world_after (on_api Sample.lib Sample.fatal_for_a
                          Sample.linked_world))) /\
  session_inv
    (this (world_after (on_link Sample.lib
                          (mkLinkMsg (VStr "id-a") false
                             (mkLinkPayload true true true VUndef VUndef
                                VUndef VUndef))
                          Sample.linked_world))).
Proof.
  assert (session_inv (this Sample.linked_world)) as Hinv
    by (repeat split).
  pose proof (session_invariant_preservation Sample.lib Sample.linked_world
                Hinv)
    as (_ & _ & _ & Hsend & _ & _ & Hapi & _ & _ & _ & Hlink & _).
  split; [exact Hinv|]. split; [apply Hsend|].
  split; [apply Hapi|]. apply Hlink. right. repeat split.
Defined.

(** Against C2 as stated: [setAuth] with a token that reports an
    authenticated and linked session, on a connection that was never
    connected; the disconnect handler on a linked session; the
    authenticated handler with a message that reports a link; the link
    handler with a response that declines the link. Each starts from a
    state that satisfies the invariant and ends in one that does not. *)
Lemma flag_writers_break_invariant :
  (session_inv (this Sample.fresh_world) /\
   ~ session_inv
       (this (world_after (setAuth Sample.linked_token
                             Sample.fresh_world)))) /\
  (session_inv (this Sample.linked_world) /\
   ~ session_inv (this (world_after (on_disconnect Sample.linked_world)))) /\
  (session_inv (this Sample.reconnected_world) /\
   ~ session_inv
       (this (world_after (on_authenticated Sample.lib 0 Sample.linked_token
                             Sample.reconnected_world)))) /\
  (session_inv (this (world_after Sample.first_link)) /\
   ~ session_inv
       (this (world_after (on_link Sample.lib Sample.link_rejection
                             (world_after Sample.first_link))))).
Proof.
  repeat match goal with |- _ /\ _ => split end; cbn zeta;
    try (vm_compute; repeat split; intros;
         first [reflexivity | discriminate]).
  - unfold session_inv. intros (_ & H & _). vm_compute in H.
    specialize (H eq_refl). discriminate.
  - unfold session_inv. intros (_ & H & _). vm_compute in H.
    specialize (H eq_refl). discriminate.
  - unfold session_inv. intros (_ & _ & H). vm_compute in H.
    specialize (H eq_refl). discriminate.
  - unfold session_inv. intros (_ & _ & H). vm_compute in H.
    specialize (H eq_refl). discriminate.
Qed.

(** ** The key schedule *)

Lemma sendRequest_api_run (L : Lib) (w : World) (payload payload' : value)
    (uuid nh : string) (s : nat) (h : HOTP)
    (Hflags : connected (this w) && authenticated (this w)
              && linked (this w) = true)
    (Hsock : socket (this w) = Some s)
    (Hotp : otp (this w) = Some h)
    (Hhash : sha256 L (VStr uuid) = Some nh)
    (Hset : set_prop payload "next_hash" (VStr nh) = inr payload') :
  let rid := next_identification (this w) in
  let h' := set_counter rid h in
  let key := HOTP_generate L h' in
  let text := JSON_stringify L payload' in
  let request :=
    mkRequest "api" rid (VStr (aes_encrypt L text key))
              (length (promises w)) in
  sendRequest L "api" payload uuid w =
  mkRun (mkWorld
           (set_requests (requests (this w) ++ [request])
              (set_otp (Some h')
                 (set_next_identification (VStr uuid) (this w))))
           (promises w ++ [Pending]))
        [EGenerate h'; EEncrypt text key; EEmit s "api" (message_of request)]
        (Return (length (promises w))).
Proof.
  open_world w. subst.
  apply andb_true_iff in Hflags as [Hflags ->].
  apply andb_true_iff in Hflags as [-> ->].
  unfold_ops. cbn. rewrite Hhash. cbn. rewrite Hset. reflexivity.
Qed.







(** * Further properties of the code *)

(** * Further properties of the code *)

(** ** The search of the registry *)

Lemma find_request_cons wanted x l :
  find_request wanted (x :: l) =
  if strict_eq (req_id x) wanted then inr (Some x)
  else match toString (req_id x) with
       | inl e => inl e
       | inr s => if strict_eq (VStr s) wanted then inr (Some x)
                  else find_request wanted l
       end.
Proof. reflexivity. Qed.

Lemma find_request_found wanted l r :
  find_request wanted l = inr (Some r) ->
  exists l1 l2,
    l = l1 ++ r :: l2 /\ id_matches r wanted = true /\
    Forall (fun x => id_matches x wanted = false) l1.
Proof.
  induction l as [|x l IH]; [discriminate|].
  rewrite find_request_cons. unfold id_matches.
  destruct (strict_eq (req_id x) wanted) eqn:E1.
  - intros [= <-]. exists [], l. rewrite E1. repeat split. constructor.
  - destruct (toString (req_id x)) as [e|s] eqn:E2; [discriminate|].
    destruct (strict_eq (VStr s) wanted) eqn:E3.
    + intros [= <-]. exists [], l. rewrite E1, E2, E3. repeat split.
      constructor.
    + intros H. destruct (IH H) as (l1 & l2 & -> & Hm & Hf).
      exists (x :: l1), l2. repeat split; [assumption|].
      constructor; [|assumption].
      unfold id_matches. rewrite E1, E2, E3. reflexivity.
Qed.

Lemma find_request_none wanted l :
  find_request wanted l = inr None ->
  Forall (fun x => id_matches x wanted = false) l.
Proof.
  induction l as [|x l IH]; [constructor|].
  rewrite find_request_cons. unfold id_matches.
  destruct (strict_eq (req_id x) wanted) eqn:E1; [discriminate|].
  destruct (toString (req_id x)) as [e|s] eqn:E2; [discriminate|].
  destruct (strict_eq (VStr s) wanted) eqn:E3; [discriminate|].
  intros H. constructor; [|auto].
  unfold id_matches. rewrite E1, E2, E3. reflexivity.
Qed.

Lemma find_request_throws wanted l e :
  find_request wanted l = inl e ->
  exists l1 x l2,
    l = l1 ++ x :: l2 /\
    Forall (fun y => id_matches y wanted = false) l1 /\
    strict_eq (req_id x) wanted = false /\ toString (req_id x) = inl e.
Proof.
  induction l as [|x l IH]; [discriminate|].
  rewrite find_request_cons.
  destruct (strict_eq (req_id x) wanted) eqn:E1; [discriminate|].
  destruct (toString (req_id x)) as [e'|s] eqn:E2.
  - intros [= <-]. exists [], x, l.
    split; [reflexivity|]. split; [constructor|]. split; assumption.
  - destruct (strict_eq (VStr s) wanted) eqn:E3; [discriminate|].
    intros H. destruct (IH H) as (l1 & y & l2 & -> & Hf & Hs & Ht).
    exists (x :: l1), y, l2.
    split; [reflexivity|]. split; [|split; assumption].
    constructor; [|assumption].
    unfold id_matches. rewrite E1, E2, E3. reflexivity.
Qed.

Lemma find_request_In wanted l r :
  find_request wanted l = inr (Some r) -> In r l.
Proof.
  intros H. destruct (find_request_found _ _ _ H) as (l1 & l2 & -> & _).
  apply in_or_app. right. left. reflexivity.
Qed.

Lemma find_request_app_none wanted l1 l2 :
  find_request wanted l1 = inr None ->
  find_request wanted (l1 ++ l2) = find_request wanted l2.
Proof.
  induction l1 as [|x l IH]; [reflexivity|].
  cbn [app]. rewrite !find_request_cons.
  destruct (strict_eq (req_id x) wanted); [discriminate|].
  destruct (toString (req_id x)); [discriminate|].
  destruct (strict_eq (VStr s) wanted); [discriminate|]. exact IH.
Qed.


Lemma strict_eq_str_refl s : strict_eq (VStr s) (VStr s) = true.
Proof. cbn. apply String.eqb_refl. Qed.

Lemma strict_eq_str s v : strict_eq (VStr s) v = true <-> v = VStr s.
Proof.
  destruct v; cbn; try (split; discriminate).
  rewrite String.eqb_eq.
  split; [intros ->; reflexivity|intros [= ->]; reflexivity].
Qed.

Lemma find_request_last wanted l r :
  find_request wanted l = inr None ->
  strict_eq (req_id r) wanted = true ->
  find_request wanted (l ++ [r]) = inr (Some r).
Proof.
  intros Hn He. rewrite find_request_app_none by assumption.
  cbn. rewrite He. reflexivity.
Qed.

Lemma find_request_snoc_other wanted l r s :
  req_id r = VStr s -> wanted <> VStr s ->
  find_request wanted l = inr None ->
  find_request wanted (l ++ [r]) = inr None.
Proof.
  intros Hr Hne Hn. rewrite find_request_app_none by assumption.
  cbn. rewrite Hr. cbn.
  destruct (strict_eq (VStr s) wanted) eqn:E; [|reflexivity].
  apply strict_eq_str in E. congruence.
Qed.

(** X1: the search of the registry answers with the first entry whose id is
    the wanted one, as it is or as text. When it finds an entry, no entry
    before it matches; when it finds none, no entry matches; and when it
    throws, it does so at the first entry whose id has no [toString], with
    no match before it. *)
Theorem find_request_first_match (wanted : value) (l : list Request) :
  (forall r, find_request wanted l = inr (Some r) ->
     exists l1 l2,
       l = l1 ++ r :: l2 /\ id_matches r wanted = true /\
       Forall (fun x => id_matches x wanted = false) l1) /\
  (find_request wanted l = inr None ->
     Forall (fun x => id_matches x wanted = false) l) /\
  (forall e, find_request wanted l = inl e ->
     exists l1 x l2,
       l = l1 ++ x :: l2 /\
       Forall (fun y => id_matches y wanted = false) l1 /\
       strict_eq (req_id x) wanted = false /\ toString (req_id x) = inl e).
Proof.
  split; [|split].
  - intros r. apply find_request_found.
  - apply find_request_none.
  - intros e. apply find_request_throws.
Qed.

Lemma find_request_first_match_witness :
  find_request (VStr "id-b") [Sample.request_a; Sample.request_b]
    = inr (Some Sample.request_b) /\
  exists l1 l2,
    [Sample.request_a; Sample.request_b] = l1 ++ Sample.request_b :: l2 /\
    id_matches Sample.request_b (VStr "id-b") = true /\
    Forall (fun x => id_matches x (VStr "id-b") = false) l1.
Proof.
  split; [reflexivity|].
  exact (proj1 (find_request_first_match (VStr "id-b")
                  [Sample.request_a; Sample.request_b])
           Sample.request_b eq_refl).
Defined.

(** X2: when every id in the registry is a string, the search never throws
    and finds the first entry whose id is exactly the wanted value. *)
Theorem find_request_string_ids (wanted : value) (l : list Request)
    (Hids : Forall (fun x => exists s, req_id x = VStr s) l) :
  find_request wanted l =
  inr (List.find (fun x => strict_eq (req_id x) wanted) l).
Proof.
  induction Hids as [|x l [s Hs] _ IH]; [reflexivity|].
  rewrite find_request_cons. cbn [List.find]. rewrite Hs. cbn [toString].
  destruct (strict_eq (VStr s) wanted); [reflexivity|]. exact IH.
Qed.

Lemma find_request_string_ids_witness :
  Forall (fun x => exists s, req_id x = VStr s)
    [Sample.request_a; Sample.request_b] /\
  find_request (VNum 5) [Sample.request_a; Sample.request_b] = inr None.
Proof.
  assert (Forall (fun x => exists s, req_id x = VStr s)
            [Sample.request_a; Sample.request_b]) as H.
  { repeat constructor; eexists; reflexivity. }
  split; [exact H|].
  exact (find_request_string_ids (VNum 5) _ H).
Defined.

(** ** Responses and the promises they settle *)

Lemma responses_touch_matched (L : Lib) (w : World) :
  (forall msg : ApiMsg,
     (find_request (api_id msg) (requests (this w)) = inr None ->
      on_api L msg w = mkRun w [] (Return tt)) /\
     (forall e, find_request (api_id msg) (requests (this w)) = inl e ->
      on_api L msg w = mkRun w [] (Throw e)) /\
     (forall r q,
        find_request (api_id msg) (requests (this w)) = inr (Some r) ->
        q <> req_promise r ->
        promises (world_after (on_api L msg w)) !! q = promises w !! q)) /\
  (forall msg : LinkMsg,
     (find_request (link_id msg) (requests (this w)) = inr None ->
      on_link L msg w = mkRun w [] (Return tt)) /\
     (forall e, find_request (link_id msg) (requests (this w)) = inl e ->
      on_link L msg w = mkRun w [] (Throw e)) /\
     (forall r q,
        find_request (link_id msg) (requests (this w)) = inr (Some r) ->
        q <> req_promise r ->
        promises (world_after (on_link L msg w)) !! q = promises w !! q)).
Proof.
  split; intros msg; (split; [|split]).
  - intros H. destruct w as [c ps]. unfold_ops. cbn in *. rewrite H.
    reflexivity.
  - intros e H. destruct w as [c ps]. unfold_ops. cbn in *. rewrite H.
    reflexivity.
  - intros r q H Hq. open_world w. destruct msg as [mid merr menc mpl].
    cbn in *. unfold_ops. cbn. rewrite H. cbn.
    repeat (case_step; cbn in * ); rewrite ?settle_other by assumption;
      reflexivity.
  - intros H. destruct w as [c ps]. unfold_ops. cbn in *. rewrite H.
    reflexivity.
  - intros e H. destruct w as [c ps]. unfold_ops. cbn in *. rewrite H.
    reflexivity.
  - intros r q H Hq. open_world w. destruct msg as [mid merr mpl].
    cbn in *. unfold_ops. cbn. rewrite H. cbn.
    repeat (case_step; cbn in * ); rewrite ?settle_other by assumption;
      reflexivity.
Qed.

(** X3: a response changes no promise but the one of the entry it matches.
    A response that matches no entry is dropped: the handler returns and
    the world is as before. When the search throws, the handler throws and
    the world is as before. This holds for the api and for the link
    handler. *)
Theorem response_settles_matched_only (L : Lib) (w : World) :
  (forall msg : ApiMsg,
     (find_request (api_id msg) (requests (this w)) = inr None ->
      on_api L msg w = mkRun w [] (Return tt)) /\
     (forall e, find_request (api_id msg) (requests (this w)) = inl e ->
      on_api L msg w = mkRun w [] (Throw e)) /\
     (forall r q,
        find_request (api_id msg) (requests (this w)) = inr (Some r) ->
        q <> req_promise r ->
        promises (world_after (on_api L msg w)) !! q = promises w !! q)) /\
  (forall msg : LinkMsg,
     (find_request (link_id msg) (requests (this w)) = inr None ->
      on_link L msg w = mkRun w [] (Return tt)) /\
     (forall e, find_request (link_id msg) (requests (this w)) = inl e ->
      on_link L msg w = mkRun w [] (Throw e)) /\
     (forall r q,
        find_request (link_id msg) (requests (this w)) = inr (Some r) ->
        q <> req_promise r ->
        promises (world_after (on_link L msg w)) !! q = promises w !! q)).
Proof. exact (responses_touch_matched L w). Qed.

Lemma response_settles_matched_only_witness :
  find_request (VStr "id-a") (requests Sample.linked_conn)
    = inr (Some Sample.request_a) /\
  1 <> req_promise Sample.request_a /\
  promises (world_after (on_api Sample.lib Sample.answer_a
                           Sample.linked_world)) !! 1 = Some Pending /\
  find_request (VStr "id-x") (requests Sample.linked_conn) = inr None /\
  on_api Sample.lib Sample.fatal_unmatched Sample.linked_world
    = mkRun Sample.linked_world [] (Return tt).
Proof.
  destruct (response_settles_matched_only Sample.lib Sample.linked_world)
    as [Hapi _].
  assert (1 <> req_promise Sample.request_a) as Hne by discriminate.
  split; [reflexivity|]. split; [exact Hne|]. split.
  - exact (proj2 (proj2 (Hapi Sample.answer_a)) Sample.request_a 1
             eq_refl Hne).
  - split; [reflexivity|].
    exact (proj1 (Hapi Sample.fatal_unmatched) eq_refl).
Defined.

(** ** Promises through sequences of operations *)

Lemma settle_length p st ps : length (settle p st ps) = length ps.
Proof.
  unfold settle. destruct (ps !! p) as [[| |]|]; try reflexivity.
  apply length_insert.
Qed.

Lemma settle_new st ps :
  settle (length ps) st (ps ++ [Pending]) = ps ++ [st].
Proof.
  unfold settle. rewrite lookup_app_r by lia. rewrite Nat.sub_diag. cbn.
  rewrite insert_app_r_alt by lia. rewrite Nat.sub_diag. reflexivity.
Qed.

Lemma lookup_old q st (ps : list promise_state) :
  q < length ps -> (ps ++ [st]) !! q = ps !! q.
Proof. intros H. apply lookup_app_l. assumption. Qed.

Ltac summary_tac :=
  unfold summary; cbn; rewrite ?settle_length, ?length_app; cbn;
  split; [lia|]; split;
  [ first [ left; reflexivity | right; left; reflexivity
          | right; right; eexists; split; [reflexivity|]; cbn;
            split; [reflexivity|lia] ]
  | intros q Hq Ha HF; rewrite ?settle_new;
    rewrite ?lookup_old by assumption; try reflexivity ].

Lemma sendRequest_summary L type payload uuid w :
  summary (fun _ => false) w (world_after (sendRequest L type payload uuid w)).
Proof.
  open_world w. destruct conn, auth, lnk; run_cases; summary_tac.
Qed.

Lemma link_begin_summary L ch rd k u1 u2 w :
  summary (fun _ => false) w (world_after (link_begin L ch rd k u1 u2 w)).
Proof.
  open_world w. destruct conn; run_cases; summary_tac.
Qed.

Lemma connect_summary i ssl port sock w :
  summary (fun _ => false) w (world_after (connect i ssl port sock w)).
Proof. open_world w. run_cases; summary_tac. Qed.

Lemma on_api_length L m w :
  length (promises (world_after (on_api L m w))) = length (promises w).
Proof.
  open_world w. destruct m as [mid merr menc mpl].
  run_cases; rewrite ?settle_length; reflexivity.
Qed.

Lemma on_link_length L m w :
  length (promises (world_after (on_link L m w))) = length (promises w).
Proof.
  open_world w. destruct m as [mid merr mpl].
  run_cases; rewrite ?settle_length; reflexivity.
Qed.

Lemma on_api_summary L m w :
  summary (fun _ => false) w (world_after (on_api L m w)).
Proof.
  unfold summary. split; [|split].
  - rewrite on_api_length. lia.
  - destruct (on_api_requests L w m) as [->|[_ ->]]; auto.
  - intros q Hq _ HF.
    destruct (responses_touch_matched L w) as [Hapi _].
    destruct (Hapi m) as (Hnone & Hthrow & Hsome).
    destruct (find_request (api_id m) (requests (this w)))
      as [e|[r|]] eqn:Hf.
    + rewrite (Hthrow e eq_refl). reflexivity.
    + apply (Hsome r q eq_refl). apply find_request_In in Hf.
      rewrite Forall_forall in HF. intros ->. apply (HF r); [|reflexivity].
      apply list_elem_of_In. assumption.
    + rewrite (Hnone eq_refl). reflexivity.
Qed.

Lemma on_link_summary L m w :
  summary (fun _ => false) w (world_after (on_link L m w)).
Proof.
  unfold summary. split; [|split].
  - rewrite on_link_length. lia.
  - left. apply on_link_requests.
  - intros q Hq _ HF.
    destruct (responses_touch_matched L w) as [_ Hlink].
    destruct (Hlink m) as (Hnone & Hthrow & Hsome).
    destruct (find_request (link_id m) (requests (this w)))
      as [e|[r|]] eqn:Hf.
    + rewrite (Hthrow e eq_refl). reflexivity.
    + apply (Hsome r q eq_refl). apply find_request_In in Hf.
      rewrite Forall_forall in HF. intros ->. apply (HF r); [|reflexivity].
      apply list_elem_of_In. assumption.
    + rewrite (Hnone eq_refl). reflexivity.
Qed.

Lemma on_authenticated_summary L p a w :
  summary (fun q => Nat.eqb p q) w (world_after (on_authenticated L p a w)).
Proof.
  open_world w. destruct a as [[aa al ak ar]].
  run_cases; summary_tac.
  all: apply Nat.eqb_neq in Ha; rewrite settle_other by congruence;
    reflexivity.
Qed.

Lemma perform_summary L a w :
  summary (fun q => authenticates q a) w (perform L a w).
Proof.
  destruct a; cbn [perform authenticates].
  - open_world w. summary_tac.
  - open_world w. run_cases; summary_tac.
  - apply connect_summary.
  - apply sendRequest_summary.
  - apply link_begin_summary.
  - open_world w. run_cases; summary_tac.
  - open_world w. run_cases; summary_tac.
  - apply on_authenticated_summary.
  - apply on_link_summary.
  - apply on_api_summary.
  - open_world w. summary_tac.
  - open_world w. run_cases; summary_tac.
Qed.

Lemma perform_free_of L a w p :
  authenticates p a = false -> free_of p w ->
  free_of p (perform L a w) /\
  promises (perform L a w) !! p = promises w !! p.
Proof.
  intros Ha [Hlt HF].
  destruct (perform_summary L a w) as (Hlen & Hreq & Hkeep).
  split; [split|].
  - lia.
  - destruct Hreq as [->|[->|(r & -> & Hr & _)]]; [assumption|constructor|].
    apply Forall_app. split; [assumption|].
    constructor; [lia|constructor].
  - apply Hkeep; assumption.
Qed.

Lemma perform_all_free_of (L : Lib) (l : list action) :
  forall (w : World) (p : nat),
    free_of p w ->
    existsb (authenticates p) l = false ->
    promises (perform_all L l w) !! p = promises w !! p.
Proof.
  induction l as [|a l IH]; intros w p Hfree Hl; [reflexivity|].
  cbn in Hl. apply orb_false_iff in Hl as [Ha Hl].
  destruct (perform_free_of L a w p Ha Hfree) as [Hfree' Heq].
  cbn [perform_all fold_left]. fold (perform_all L l (perform L a w)).
  rewrite (IH _ _ Hfree' Hl). exact Heq.
Qed.

(** X4: a promise that no entry of the registry holds keeps its state
    through every sequence of method calls and socket events, the
    [authenticated] event for that very promise apart. *)
Theorem unregistered_promise_is_never_settled (L : Lib) (l : list action)
    (w : World) (p : nat)
    (Hfree : free_of p w)
    (Hl : existsb (authenticates p) l = false) :
  promises (perform_all L l w) !! p = promises w !! p.
Proof. apply perform_all_free_of; assumption. Qed.

Lemma unregistered_promise_is_never_settled_witness :
  let w := mkWorld Sample.linked_conn [Pending; Pending; Pending] in
  let l := [GotApi Sample.answer_a; GotLink Sample.link_rejection;
            DoSendRequest "api" Sample.call "id-2";
            GotApi Sample.encrypted_answer_1; GotDisconnect] in
  free_of 2 w /\
  existsb (authenticates 2) l = false /\
  promises (perform_all Sample.lib l w) !! 2 = Some Pending.
Proof.
  cbn zeta.
  assert (free_of 2 (mkWorld Sample.linked_conn [Pending; Pending; Pending]))
    as Hfree.
  { split; [cbn; lia|]. repeat constructor; discriminate. }
  split; [exact Hfree|]. split; [reflexivity|].
  exact (unregistered_promise_is_never_settled Sample.lib
           [GotApi Sample.answer_a; GotLink Sample.link_rejection;
            DoSendRequest "api" Sample.call "id-2";
            GotApi Sample.encrypted_answer_1; GotDisconnect]
           _ 2 Hfree eq_refl).
Defined.

(** X5: the promises that exist when [reset] or the disconnect handler runs
    are dropped for good: whatever is called and whatever arrives later,
    each keeps the state it had, so a request that was pending is never
    resolved and never rejected. *)
Theorem dropped_requests_never_settle (L : Lib) (w : World) (p : nat)
    (l : list action)
    (Hp : p < length (promises w))
    (Hl : existsb (authenticates p) l = false) :
  promises (perform_all L l (world_after (reset w))) !! p
    = promises w !! p /\
  promises (perform_all L l (world_after (on_disconnect w))) !! p
    = promises w !! p.
Proof.
  split.
  - rewrite perform_all_free_of;
      [reflexivity| |assumption].
    split; [exact Hp|constructor].
  - rewrite perform_all_free_of;
      [reflexivity| |assumption].
    split; [exact Hp|constructor].
Qed.

Lemma dropped_requests_never_settle_witness :
  let l := [DoConnect None true (VNum 60556) (Some 8);
            GotConnect None 8 "u1"; GotApi Sample.answer_a;
            DoSendRequest "link" Sample.call "id-a"; GotApi Sample.answer_a]
  in
  0 < length (promises Sample.linked_world) /\
  existsb (authenticates 0) l = false /\
  promises (perform_all Sample.lib l
              (world_after (on_disconnect Sample.linked_world))) !! 0
    = Some Pending.
Proof.
  cbn zeta. split; [cbn; lia|]. split; [reflexivity|].
  assert (0 < length (promises Sample.linked_world)) as Hlt by (cbn; lia).
  exact (proj2 (dropped_requests_never_settle Sample.lib
                  Sample.linked_world 0
                  [DoConnect None true (VNum 60556) (Some 8);
                   GotConnect None 8 "u1"; GotApi Sample.answer_a;
                   DoSendRequest "link" Sample.call "id-a";
                   GotApi Sample.answer_a]
                  Hlt eq_refl)).
Defined.

Lemma perform_registry_ok L a w :
  registry_ok w -> registry_ok (perform L a w).
Proof.
  intros [HF HN].
  destruct (perform_summary L a w) as (Hlen & Hreq & _).
  unfold registry_ok.
  destruct Hreq as [->|[->|(r & -> & Hr & Hlt)]].
  - split; [|assumption]. eapply Forall_impl; [exact HF|]. cbn. intros; lia.
  - split; constructor.
  - split.
    + apply Forall_app. split.
      * eapply Forall_impl; [exact HF|]. cbn. intros; lia.
      * constructor; [lia|constructor].
    + rewrite map_app. cbn. apply NoDup_app. split; [assumption|]. split.
      * intros x Hx Hx'. apply list_elem_of_singleton in Hx'. subst x.
        apply list_elem_of_fmap in Hx as (r' & Hr' & Hin).
        rewrite Forall_forall in HF. specialize (HF r' Hin). lia.
      * apply NoDup_singleton.
Qed.

(** X6: in every state a connection can reach from its construction, by any
    sequence of method calls and socket events, each entry of the registry
    holds a promise that exists and no two entries hold the same promise. *)
Theorem registry_ok_reachable (L : Lib) (a : App) (ident : option object)
    (l : list action) :
  registry_ok (perform_all L l (mkWorld (constructor a ident) [])).
Proof.
  assert (forall w, registry_ok w -> registry_ok (perform_all L l w)) as H.
  { induction l as [|x l IH]; intros w Hw; [exact Hw|].
    cbn. apply IH. apply perform_registry_ok. exact Hw. }
  apply H. split; constructor.
Qed.

(** ** sendRequest *)

(** X7: whatever its arguments and the state, [sendRequest] returns a new
    promise and leaves every earlier promise, the identity, the three
    flags, the socket, the secret and the wallet key as they are. Either it
    registers nothing and emits nothing, or it registers one entry, which
    holds the returned promise, still pending, and emits that entry, and
    nothing else, on the socket of the connection. *)
Theorem sendRequest_frame (L : Lib) (w : World) (type : string)
    (payload : value) (uuid : string) :
  let r := sendRequest L type payload uuid w in
  let c := this w in
  let c' := this (world_after r) in
  outcome r = Return (length (promises w)) /\
  (exists st, promises (world_after r) = promises w ++ [st]) /\
  (identity c' = identity c /\ connected c' = connected c /\
   authenticated c' = authenticated c /\ linked c' = linked c /\
   socket c' = socket c /\ secret c' = secret c /\ beetkey c' = beetkey c /\
   cfg c' = cfg c) /\
  ((requests c' = requests c /\
    forall s name m, ~ In (EEmit s name m) (trace r)) \/
   (exists e s,
      requests c' = requests c ++ [e] /\
      req_promise e = length (promises w) /\ req_type e = type /\
      socket c = Some s /\
      promises (world_after r) = promises w ++ [Pending] /\
      In (EEmit s type (message_of e)) (trace r) /\
      forall s' name m, In (EEmit s' name m) (trace r) ->
        s' = s /\ name = type /\ m = message_of e)).
Proof.
  open_world w. destruct conn, auth, lnk, sock; run_cases;
    rewrite ?settle_new.
  all: split; [reflexivity|]; split; [eexists; reflexivity|];
       split; [repeat split|].
  all: first
    [ left; split; [reflexivity|]; intros; intros HIn; in_cases; discriminate
    | right; do 2 eexists; split; [reflexivity|];
      split; [reflexivity|]; split; [reflexivity|]; split; [reflexivity|];
      split; [reflexivity|]; split;
      [cbn; auto 6|intros; in_cases; simplify_eq; auto] ].
Qed.

(** ** The channel: connect and disconnect *)


(** X9: [connect] without an identity resets the session first, so flags,
    identity, otp and registry of an earlier session are gone even when
    opening the socket throws; [connect] with an identity stores it and
    keeps everything else, and when opening the socket throws it keeps the
    earlier socket too. In both cases one socket is opened, the returned
    promise is new, and it is rejected with [false] at once exactly when
    opening the socket threw. *)
Theorem connect_cases (w : World) (ssl : bool) (port : value) :
  (forall sock,
     let r := connect None ssl port sock w in
     this (world_after r) = set_socket sock (this (world_after (reset w))) /\
     promises (world_after r) =
       promises w ++ [match sock with
                      | Some _ => Pending
                      | None => Rejected (AValue (VBool false))
                      end]) /\
  (forall i sock,
     let r := connect (Some i) ssl port sock w in
     this (world_after r) =
       match sock with
       | Some s => set_socket (Some s) (set_identity (Some i) (this w))
       | None => set_identity (Some i) (this w)
       end /\
     promises (world_after r) =
       promises w ++ [match sock with
                      | Some _ => Pending
                      | None => Rejected (AValue (VBool false))
                      end]) /\
  (forall ident sock,
     trace (connect ident ssl port sock w) = [EIo ssl port] /\
     outcome (connect ident ssl port sock w) = Return (length (promises w))).
Proof.
  open_world w. split; [|split].
  - intros [s|]; unfold_ops; cbn; rewrite ?settle_new; split; reflexivity.
  - intros i [s|]; unfold_ops; cbn; rewrite ?settle_new; split; reflexivity.
  - intros [i|] [s|]; unfold_ops; cbn; split; reflexivity.
Qed.

(** ** link *)

(** X10: up to the point where it awaits the answer, [link] changes
    neither the identity nor the flags, the socket, the otp or the wallet
    key. Called on a session that is not connected it
    throws and leaves the world as it is; otherwise it returns. When it
    reaches its [await], the promise it awaits is a new one; when it
    returns early (no wallet key, or a key agreement or hash that throws),
    it has made no promise, registered nothing and emitted nothing. *)
Theorem link_begin_sends_or_nothing (L : Lib) (w : World)
    (chain rd : value) (privk : bytes) (u1 u2 : string) :
  let r := link_begin L chain rd privk u1 u2 w in
  let c := this w in
  let c' := this (world_after r) in
  (identity c' = identity c /\ connected c' = connected c /\
   authenticated c' = authenticated c /\ linked c' = linked c /\
   socket c' = socket c /\ otp c' = otp c /\ beetkey c' = beetkey c) /\
  (connected c = false ->
   r = mkRun w [] (Throw (Error "You must connect to beeteos first."))) /\
  (connected c = true -> exists x, outcome r = Return x) /\
  (forall p, outcome r = Return (LinkAwaits p) ->
     p = length (promises w) /\
     exists st, promises (world_after r) = promises w ++ [st]) /\
  (outcome r = Return LinkReturned ->
     promises (world_after r) = promises w /\
     requests c' = requests c /\
     forall s name m, ~ In (EEmit s name m) (trace r)).
Proof.
  open_world w. destruct conn.
  - destruct sock; run_cases; rewrite ?settle_new.
    all: split; [repeat split|].
    all: split; [discriminate|].
    all: split; [intros _; eexists; reflexivity|].
    all: split; [intros p Hp; simplify_eq;
                 (split; [reflexivity|eexists; reflexivity])|].
    all: intros Hr; simplify_eq; repeat split; intros; intros HIn;
      in_cases; discriminate.
  - run_cases. split; [repeat split|]. split; [reflexivity|].
    split; [discriminate|]. split; discriminate.
Qed.

Lemma link_begin_sends_or_nothing_witness :
  let w := mkWorld (set_beetkey VUndef Sample.authenticated_conn) [] in
  let r := link_begin Sample.lib (VStr "BTS") (VArr [VStr "account"])
             Sample.privk "n1" "r1" w in
  outcome r = Return LinkReturned /\
  promises (world_after r) = [] /\
  requests (this (world_after r)) = [] /\
  (forall s name m, ~ In (EEmit s name m) (trace r)) /\
  connected (this Sample.fresh_world) = false /\
  link_begin Sample.lib (VStr "BTS") (VArr [VStr "account"])
    Sample.privk "n1" "r1" Sample.fresh_world
  = mkRun Sample.fresh_world []
      (Throw (Error "You must connect to beeteos first.")).
Proof.
  cbn zeta.
  pose proof (link_begin_sends_or_nothing Sample.lib
                (mkWorld (set_beetkey VUndef Sample.authenticated_conn) [])
                (VStr "BTS") (VArr [VStr "account"]) Sample.privk "n1" "r1")
    as (_ & _ & _ & _ & Hret).
  destruct (Hret eq_refl) as (Hp & Hr & He).
  split; [reflexivity|]. split; [exact Hp|]. split; [exact Hr|].
  split; [exact He|]. split; [reflexivity|].
  exact (proj1 (proj2 (link_begin_sends_or_nothing Sample.lib
                         Sample.fresh_world (VStr "BTS")
                         (VArr [VStr "account"]) Sample.privk "n1" "r1"))
           eq_refl).
Defined.

Lemma link_begin_first (L : Lib) (w : World) (chain rd : value)
    (privk shared pubk : bytes) (u1 u2 h : string) (s : nat)
    (Hconn : connected (this w) = true)
    (Hsock : socket (this w) = Some s)
    (Hid : stored_identity (this w) = None)
    (Hkey : truthy (beetkey (this w)) = true)
    (Hshared : getSharedSecret L privk (beetkey (this w)) = Some shared)
    (Hpub : getPublicKey L privk = Some pubk)
    (Hhash : sha256 L (VStr u1) = Some h) :
  let payload :=
    VObj [("chain", chain); ("request", rd);
          ("pubkey", VStr (bytesToHex L pubk)); ("next_hash", VStr h)] in
  let request := mkRequest "linkRequest" (VStr u2) payload
                   (length (promises w)) in
  link_begin L chain rd privk u1 u2 w =
  mkRun (mkWorld
           (set_requests (requests (this w) ++ [request])
              (set_next_identification (VStr u1)
                 (set_secret (VStr (bytesToHex L shared)) (this w))))
           (promises w ++ [Pending]))
        [ERandomPrivateKey; EGetSharedSecret privk (beetkey (this w));
         EGetPublicKey privk; EEmit s "linkRequest" (message_of request)]
        (Return (LinkAwaits (length (promises w)))).
Proof.
  open_world w. subst. unfold stored_identity in Hid. cbn in Hid.
  unfold_ops. cbn. rewrite Hid, Hkey. cbn. rewrite Hshared. cbn.
  rewrite Hpub. cbn. rewrite Hhash. cbn. rewrite Hid. reflexivity.
Qed.

(** X11: a first link, on a connected session with a socket, a wallet key
    and no stored identityhash, when the key agreement and the hash
    succeed: [link] draws a private key, agrees on the secret with the
    wallet key, stores its hex text as [secret] and the new id as
    [next_identification], and sends one [linkRequest] that holds the
    chain, the request, the public key of the drawn private key and the
    hash of the new id. It registers that request and awaits its
    promise. *)
Theorem first_link_run (L : Lib) (w : World) (chain rd : value)
    (privk shared pubk : bytes) (u1 u2 h : string) (s : nat)
    (Hconn : connected (this w) = true)
    (Hsock : socket (this w) = Some s)
    (Hid : stored_identity (this w) = None)
    (Hkey : truthy (beetkey (this w)) = true)
    (Hshared : getSharedSecret L privk (beetkey (this w)) = Some shared)
    (Hpub : getPublicKey L privk = Some pubk)
    (Hhash : sha256 L (VStr u1) = Some h) :
  let payload :=
    VObj [("chain", chain); ("request", rd);
          ("pubkey", VStr (bytesToHex L pubk)); ("next_hash", VStr h)] in
  let request := mkRequest "linkRequest" (VStr u2) payload
                   (length (promises w)) in
  link_begin L chain rd privk u1 u2 w =
  mkRun (mkWorld
           (set_requests (requests (this w) ++ [request])
              (set_next_identification (VStr u1)
                 (set_secret (VStr (bytesToHex L shared)) (this w))))
           (promises w ++ [Pending]))
        [ERandomPrivateKey; EGetSharedSecret privk (beetkey (this w));
         EGetPublicKey privk; EEmit s "linkRequest" (message_of request)]
        (Return (LinkAwaits (length (promises w)))).
Proof.
  exact (link_begin_first L w chain rd privk shared pubk u1 u2 h s
           Hconn Hsock Hid Hkey Hshared Hpub Hhash).
Qed.

Lemma first_link_run_witness :
  (connected Sample.authenticated_conn = true /\
   socket Sample.authenticated_conn = Some 7 /\
   stored_identity Sample.authenticated_conn = None /\
   truthy (beetkey Sample.authenticated_conn) = true /\
   getSharedSecret Sample.lib Sample.privk (VStr "PKHEX")
     = Some (String.list_byte_of_string "k1PKHEX") /\
   getPublicKey Sample.lib Sample.privk
     = Some (String.list_byte_of_string "1k") /\
   sha256 Sample.lib (VStr "n1") = Some "sha256:n1") /\
  trace Sample.first_link =
    [ERandomPrivateKey; EGetSharedSecret Sample.privk (VStr "PKHEX");
     EGetPublicKey Sample.privk;
     EEmit 7 "linkRequest"
       (mkMessage "linkRequest" (VStr "r1")
          (VObj [("chain", VStr "BTS"); ("request", VArr [VStr "account"]);
                 ("pubkey", VStr "1k"); ("next_hash", VStr "sha256:n1")]))]
  /\ secret (this (world_after Sample.first_link)) = VStr "k1PKHEX".
Proof.
  split; [repeat split|].
  unfold Sample.first_link.
  rewrite (first_link_run Sample.lib Sample.authenticated_world
             (VStr "BTS") (VArr [VStr "account"]) Sample.privk
             (String.list_byte_of_string "k1PKHEX")
             (String.list_byte_of_string "1k") "n1" "r1" "sha256:n1" 7
             eq_refl eq_refl eq_refl eq_refl eq_refl eq_refl eq_refl).
  split; reflexivity.
Defined.

Lemma on_link_accept_run (L : Lib) (w : World) (m : LinkMsg) (r : Request)
    (sec : bytes)
    (Hfind : find_request (link_id m) (requests (this w)) = inr (Some r))
    (Herr : link_error m = false)
    (Hnew : lp_existing (link_payload m) = false \/ identity (this w) = None)
    (Hsec : Secret_fromHex L (secret (this w)) = Some sec) :
  on_link L m w =
  mkRun (mkWorld
           (set_otp (Some (new_HOTP sec))
              (set_identity (Some (first_identity (this w) (link_payload m)))
                 (set_authenticated (lp_authenticate (link_payload m))
                    (set_linked (lp_link (link_payload m)) (this w)))))
           (settle (req_promise r) (Resolved (ALink m)) (promises w)))
        [] (Return tt).
Proof.
  open_world w. destruct m as [mid merr [a b c d e f g]]. cbn in *. subst.
  unfold_ops. cbn. rewrite Hfind. cbn. rewrite Hsec. cbn.
  destruct Hnew as [->| ->]; [|destruct c]; reflexivity.
Qed.

(** X12: when the wallet accepts a link that is not merged into an existing
    identity, the handler builds the identity from the response and from
    the [secret] and [next_identification] that [link] had set, installs
    the otp, copies [link] and [authenticate] into the flags and resolves
    the awaited promise, so [link] returns the response. With an
    identityhash in it, this identity is a stored identity: a later [link]
    on the still connected session is a relink that leaves [secret] and
    [next_identification] at the values of the first link and sends a
    [relinkRequest] with that identityhash. *)
Theorem link_then_relink (L : Lib) (w : World) (m : LinkMsg) (r : Request)
    (sec : bytes) (chain rd : value) (privk : bytes) (u1 u2 h : string)
    (s : nat)
    (Hfind : find_request (link_id m) (requests (this w)) = inr (Some r))
    (Hpend : promises w !! req_promise r = Some Pending)
    (Herr : link_error m = false)
    (Hnew : lp_existing (link_payload m) = false \/ identity (this w) = None)
    (Hsec : Secret_fromHex L (secret (this w)) = Some sec)
    (Hih : truthy (lp_identityhash (link_payload m)) = true)
    (Hconn : connected (this w) = true)
    (Hsock : socket (this w) = Some s)
    (Hhash : sha256 L (next_identification (this w)) = Some h) :
  let w1 := world_after (on_link L m w) in
  let i := first_identity (this w) (link_payload m) in
  let again := link_begin L chain rd privk u1 u2 w1 in
  identity (this w1) = Some i /\
  otp (this w1) = Some (new_HOTP sec) /\
  linked (this w1) = lp_link (link_payload m) /\
  authenticated (this w1) = lp_authenticate (link_payload m) /\
  outcome (link_resume (req_promise r) w1) = Return (LinkValue (ALink m)) /\
  stored_identity (this w1) = Some i /\
  secret (this (world_after again)) = secret (this w) /\
  next_identification (this (world_after again))
    = next_identification (this w) /\
  trace again =
    [EEmit s "relinkRequest"
       (mkMessage "relinkRequest" (VStr u2)
          (VObj [("chain", chain); ("request", rd); ("next_hash", VStr h);
                 ("identityhash", lp_identityhash (link_payload m))]))].
Proof.
  cbn zeta. rewrite (on_link_accept_run L w m r sec) by assumption. cbn.
  open_world w. destruct m as [mid merr [a b c d e f g]]. cbn in *. subst.
  repeat split.
  - unfold link_resume. cbn. rewrite settle_pending by assumption.
    reflexivity.
  - unfold stored_identity. cbn. rewrite Hih. reflexivity.
  - unfold_ops. cbn. rewrite Hih. cbn. rewrite Hhash. cbn. rewrite Hih.
    reflexivity.
  - unfold_ops. cbn. rewrite Hih. cbn. rewrite Hhash. cbn. rewrite Hih.
    reflexivity.
  - unfold_ops. cbn. rewrite Hih. cbn. rewrite Hhash. cbn. rewrite Hih.
    reflexivity.
Qed.

Lemma link_then_relink_witness :
  let w := world_after Sample.first_link in
  let r := mkRequest "linkRequest" (VStr "r1")
             (VObj [("chain", VStr "BTS");
                    ("request", VArr [VStr "account"]);
                    ("pubkey", VStr "1k");
                    ("next_hash", VStr "sha256:n1")]) 0 in
  let w1 := world_after (on_link Sample.lib Sample.link_approval w) in
  (find_request (VStr "r1") (requests (this w)) = inr (Some r) /\
   promises w !! 0 = Some Pending /\
   link_error Sample.link_approval = false /\
   lp_existing (link_payload Sample.link_approval) = false /\
   Secret_fromHex Sample.lib (secret (this w))
     = Some (String.list_byte_of_string "k1PKHEX") /\
   truthy (VStr "IH") = true /\
   connected (this w) = true /\ socket (this w) = Some 7 /\
   sha256 Sample.lib (next_identification (this w)) = Some "sha256:n1") /\
  linked (this w1) = true /\
  outcome (link_resume 0 w1) = Return (LinkValue (ALink Sample.link_approval))
  /\
  trace (link_begin Sample.lib (VStr "BTS") (VArr [VStr "account"])
           Sample.privk "n2" "r2" w1) =
    [EEmit 7 "relinkRequest"
       (mkMessage "relinkRequest" (VStr "r2")
          (VObj [("chain", VStr "BTS"); ("request", VArr [VStr "account"]);
                 ("next_hash", VStr "sha256:n1");
                 ("identityhash", VStr "IH")]))].
Proof.
  cbn zeta. split; [repeat split|].
  pose proof (link_then_relink Sample.lib (world_after Sample.first_link)
                Sample.link_approval
                (mkRequest "linkRequest" (VStr "r1")
                   (VObj [("chain", VStr "BTS");
                          ("request", VArr [VStr "account"]);
                          ("pubkey", VStr "1k");
                          ("next_hash", VStr "sha256:n1")]) 0)
                (String.list_byte_of_string "k1PKHEX")
                (VStr "BTS") (VArr [VStr "account"]) Sample.privk
                "n2" "r2" "sha256:n1" 7
                eq_refl eq_refl eq_refl (or_introl eq_refl) eq_refl eq_refl
                eq_refl eq_refl eq_refl)
    as (_ & _ & Hl & _ & Hres & _ & _ & _ & Htr).
  split; [exact Hl|]. split; [exact Hres|exact Htr].
Defined.

(** ** getAccount and the merged fields *)

(** X13: after a link that built the identity anew, [getAccount] throws
    that the connection has no access to account details, whatever the
    wallet granted: the granted fields are kept under [requested], and the
    identity has no [account] of its own. *)
Theorem getAccount_after_first_link (L : Lib) (w : World) (m : LinkMsg)
    (r : Request) (sec : bytes)
    (Hfind : find_request (link_id m) (requests (this w)) = inr (Some r))
    (Herr : link_error m = false)
    (Hnew : lp_existing (link_payload m) = false \/ identity (this w) = None)
    (Hsec : Secret_fromHex L (secret (this w)) = Some sec) :
  let c1 := this (world_after (on_link L m w)) in
  getAccount c1 =
    inl (ThrownText "This connection does not have access to account details")
  /\ exists i, identity c1 = Some i /\
               obj_get i "requested" = lp_requested (link_payload m).
Proof.
  cbn zeta. rewrite (on_link_accept_run L w m r sec) by assumption. cbn.
  split; [reflexivity|]. eexists. split; reflexivity.
Qed.

Lemma getAccount_after_first_link_witness :
  let w := world_after Sample.first_link in
  let c1 := this (world_after (on_link Sample.lib Sample.link_approval w)) in
  (exists r, find_request (VStr "r1") (requests (this w)) = inr (Some r)) /\
  link_error Sample.link_approval = false /\
  lp_existing (link_payload Sample.link_approval) = false /\
  Secret_fromHex Sample.lib (secret (this w))
    = Some (String.list_byte_of_string "k1PKHEX") /\
  getAccount c1 =
    inl (ThrownText "This connection does not have access to account details")
  /\ lp_requested (link_payload Sample.link_approval)
     = VObj [("account", VObj [("name", VStr "alice")])].
Proof.
  cbn zeta. split; [eexists; reflexivity|]. do 3 (split; [reflexivity|]).
  split; [|reflexivity].
  exact (proj1 (getAccount_after_first_link Sample.lib
                  (world_after Sample.first_link) Sample.link_approval _
                  (String.list_byte_of_string "k1PKHEX")
                  eq_refl eq_refl (or_introl eq_refl) eq_refl)).
Defined.

Lemma obj_get_set_same o k v : obj_get (obj_set o k v) k = v.
Proof.
  induction o as [|[k' v'] o IH]; cbn.
  - rewrite String.eqb_refl. reflexivity.
  - destruct (String.eqb k' k) eqn:E; cbn; rewrite E; [reflexivity|exact IH].
Qed.

Lemma obj_get_set_other o k v k' :
  k' <> k -> obj_get (obj_set o k v) k' = obj_get o k'.
Proof.
  intros Hne. induction o as [|[k0 v0] o IH]; cbn.
  - destruct (String.eqb k k') eqn:E; [|reflexivity].
    apply String.eqb_eq in E. congruence.
  - destruct (String.eqb k0 k) eqn:E; cbn.
    + apply String.eqb_eq in E. subst k0.
      destruct (String.eqb k k') eqn:E'; [|reflexivity].
      apply String.eqb_eq in E'. congruence.
    + destruct (String.eqb k0 k'); [reflexivity|exact IH].
Qed.

Lemma obj_has_app l l' k : obj_has (l ++ l') k = obj_has l k || obj_has l' k.
Proof.
  induction l as [|[k0 v0] l IH]; cbn; [reflexivity|].
  rewrite IH. apply orb_assoc.
Qed.

Lemma obj_has_rev l k : obj_has (rev l) k = obj_has l k.
Proof.
  induction l as [|[k0 v0] l IH]; cbn; [reflexivity|].
  rewrite obj_has_app, IH. cbn. rewrite orb_false_r. apply orb_comm.
Qed.

Lemma obj_get_app (l l' : object) k :
  obj_get (l ++ l') k = if obj_has l k then obj_get l k else obj_get l' k.
Proof.
  induction l as [|[k0 v0] l IH]; cbn; [reflexivity|].
  destruct (String.eqb k0 k); [reflexivity|exact IH].
Qed.

(** After the properties [fs] are set on [o] one after the other, a key of
    [fs] has the value of its last mention there, and every other key has
    its value in [o]. *)
Lemma fold_obj_set_get fs : forall o k,
  obj_get (fold_left (fun o kv => obj_set o (fst kv) (snd kv)) fs o) k =
  if obj_has fs k then obj_get (rev fs) k else obj_get o k.
Proof.
  induction fs as [|[k1 v1] fs IH]; intros o k; [reflexivity|].
  cbn [fold_left fst snd]. rewrite IH. cbn [obj_has rev].
  rewrite obj_get_app, obj_has_rev.
  destruct (obj_has fs k); [rewrite orb_true_r; reflexivity|].
  rewrite orb_false_r. cbn.
  destruct (String.eqb k1 k) eqn:E.
  - apply String.eqb_eq in E. subst. apply obj_get_set_same.
  - apply obj_get_set_other. intros ->. rewrite String.eqb_refl in E.
    discriminate.
Qed.

Lemma Object_assign_props o source k :
  obj_get (Object_assign o source) k =
  if obj_has (own_props source) k then obj_get (rev (own_props source)) k
  else obj_get o k.
Proof. unfold Object_assign. apply fold_obj_set_get. Qed.

Lemma Object_assign_get fs : forall o k,
  obj_get (Object_assign o (VObj fs)) k =
  if obj_has fs k then obj_get (rev fs) k else obj_get o k.
Proof. intros o k. apply (Object_assign_props o (VObj fs) k). Qed.







(** ** The authenticated event *)

Lemma on_authenticated_run (L : Lib) (w : World) (p : nat) (a : AuthMsg) :
  let r := on_authenticated L p a w in
  let c := this w in
  let c' := this (world_after r) in
  let pl := auth_payload a in
  (connected c' = connected c /\ authenticated c' = authenticated c /\
   linked c' = linked c /\ requests c' = requests c /\
   socket c' = socket c /\ secret c' = secret c /\
   next_identification c' = next_identification c) /\
  (ap_link pl = false ->
   r = mkRun (mkWorld (set_beetkey (ap_pub_key pl) c)
                (settle p (Resolved (AAuth a)) (promises w)))
             [] (Return tt)) /\
  (ap_link pl = true -> identity c = None ->
   r = mkRun w [] (Throw (TypeError "Cannot read properties of null"))) /\
  (forall i, ap_link pl = true -> identity c = Some i ->
   Secret_fromHex L (obj_get i "secret") = None ->
   r = mkRun w [] (Throw (LibError "Secret.fromHex"))) /\
  (forall i sec, ap_link pl = true -> identity c = Some i ->
   Secret_fromHex L (obj_get i "secret") = Some sec ->
   r = mkRun (mkWorld
                (set_identity (Some (Object_assign i (ap_requested pl)))
                   (set_otp (Some (new_HOTP sec)) c))
                (settle p (Resolved (AAuth a)) (promises w)))
             [] (Return tt)).
Proof.
  open_world w. destruct a as [[aa al ak ar]]. cbn.
  split; [run_cases; repeat split|].
  split; [intros ->; reflexivity|].
  split; [intros -> ->; reflexivity|].
  split.
  - intros i -> -> H. unfold_ops. cbn. rewrite H. reflexivity.
  - intros i sec0 -> -> H. unfold_ops. cbn. rewrite H. reflexivity.
Qed.

(** X15: the authenticated handler never changes [connected],
    [authenticated] or [linked], nor the registry, the socket or the
    secret. When the message reports no link it stores the wallet key and
    resolves the promise of [connect] with the message. When it reports a
    link it needs the identity given to [connect]: without one, or with a
    secret that does not read as hex, it throws, changes nothing and
    leaves the promise of [connect] unsettled; with one it installs the
    otp from the secret of that identity, merges the granted fields into
    it and resolves the promise. *)
Theorem on_authenticated_cases (L : Lib) (w : World) (p : nat)
    (a : AuthMsg) :
  let r := on_authenticated L p a w in
  let c := this w in
  let c' := this (world_after r) in
  let pl := auth_payload a in
  (connected c' = connected c /\ authenticated c' = authenticated c /\
   linked c' = linked c /\ requests c' = requests c /\
   socket c' = socket c /\ secret c' = secret c /\
   next_identification c' = next_identification c) /\
  (ap_link pl = false ->
   r = mkRun (mkWorld (set_beetkey (ap_pub_key pl) c)
                (settle p (Resolved (AAuth a)) (promises w)))
             [] (Return tt)) /\
  (ap_link pl = true -> identity c = None ->
   r = mkRun w [] (Throw (TypeError "Cannot read properties of null"))) /\
  (forall i, ap_link pl = true -> identity c = Some i ->
   Secret_fromHex L (obj_get i "secret") = None ->
   r = mkRun w [] (Throw (LibError "Secret.fromHex"))) /\
  (forall i sec, ap_link pl = true -> identity c = Some i ->
   Secret_fromHex L (obj_get i "secret") = Some sec ->
   r = mkRun (mkWorld
                (set_identity (Some (Object_assign i (ap_requested pl)))
                   (set_otp (Some (new_HOTP sec)) c))
                (settle p (Resolved (AAuth a)) (promises w)))
             [] (Return tt)).
Proof. exact (on_authenticated_run L w p a). Qed.

Lemma on_authenticated_cases_witness :
  let w0 := world_after (connect None true (VNum 60556) (Some 7)
                           Sample.fresh_world) in
  (ap_link (auth_payload Scenario.relinked_token) = true /\
   identity (this w0) = None /\
   on_authenticated Sample.lib 0 Scenario.relinked_token w0
   = mkRun w0 [] (Throw (TypeError "Cannot read properties of null")) /\
   promises w0 !! 0 = Some Pending) /\
  (ap_link (auth_payload Scenario.token) = false /\
   promises (world_after (on_authenticated Sample.lib 0 Scenario.token w0))
     !! 0 = Some (Resolved (AAuth Scenario.token)) /\
   authenticated
     (this (world_after (on_authenticated Sample.lib 0 Scenario.token w0)))
   = false).
Proof.
  cbn zeta.
  set (w0 := world_after (connect None true (VNum 60556) (Some 7)
                            Sample.fresh_world)).
  split.
  - split; [reflexivity|]. split; [reflexivity|]. split; [|reflexivity].
    exact (proj1 (proj2 (proj2 (on_authenticated_cases Sample.lib w0 0
                                  Scenario.relinked_token)))
             eq_refl eq_refl).
  - split; [reflexivity|].
    rewrite (proj1 (proj2 (on_authenticated_cases Sample.lib w0 0
                             Scenario.token)) eq_refl).
    split; reflexivity.
Defined.

(** X16: after an authenticated message that reports a link and grants an
    account, [getAccount] returns the granted account: the granted fields
    are merged into the identity itself. *)
Theorem getAccount_after_authenticated (L : Lib) (w : World) (p : nat)
    (a : AuthMsg) (i : object) (sec : bytes) (fs : object)
    (Hlink : ap_link (auth_payload a) = true)
    (Hid : identity (this w) = Some i)
    (Hsec : Secret_fromHex L (obj_get i "secret") = Some sec)
    (Hreq : ap_requested (auth_payload a) = VObj fs)
    (Hhas : obj_has fs "account" = true)
    (Hacc : truthy (obj_get (rev fs) "account") = true) :
  getAccount (this (world_after (on_authenticated L p a w)))
  = inr (obj_get (rev fs) "account").
Proof.
  destruct (on_authenticated_run L w p a) as (_ & _ & _ & _ & H).
  rewrite (H i sec Hlink Hid Hsec). cbn. unfold getAccount. cbn.
  rewrite Hreq, Object_assign_get, Hhas, Hacc. reflexivity.
Qed.

Lemma getAccount_after_authenticated_witness :
  ap_link (auth_payload Scenario.relinked_token) = true /\
  identity (this Sample.reconnected_world) = Some Sample.stored /\
  Secret_fromHex Sample.lib (obj_get Sample.stored "secret")
    = Some (String.list_byte_of_string "abcd") /\
  getAccount
    (this (world_after (on_authenticated Sample.lib 0
                          Scenario.relinked_token
                          Sample.reconnected_world)))
  = inr (VObj [("name", VStr "alice")]).
Proof.
  do 3 (split; [reflexivity|]).
  exact (getAccount_after_authenticated Sample.lib Sample.reconnected_world
           0 Scenario.relinked_token Sample.stored
           (String.list_byte_of_string "abcd")
           [("account", VObj [("name", VStr "alice")])]
           eq_refl eq_refl eq_refl eq_refl eq_refl eq_refl).
Defined.

(** ** A first session from construction to the link *)

(** X17: a new connection object that connects without identity, gets the
    connect event, an authenticated message without link that brings the
    wallet key, calls [link] and gets the response that accepts it. Before
    the response the session is neither authenticated nor linked and has no
    otp, and the link request is the only entry of the registry. After it
    both promises are resolved, the flags are those of the response, the
    secret is the hex text of the agreed secret, the otp is made from it,
    and the identity holds the identityhash and chain of the response, the
    secret, and the next id that [link] drew; [link] returns the
    response. *)
Theorem first_session_handshake (L : Lib) (a : App) (ssl : bool)
    (port : value) (s : nat) (u_auth u_next u_req h : string)
    (privk shared pubk sec : bytes) (chain rd : value)
    (auth : AuthMsg) (m : LinkMsg)
    (Hauth : ap_link (auth_payload auth) = false)
    (Hkey : truthy (ap_pub_key (auth_payload auth)) = true)
    (Hshared : getSharedSecret L privk (ap_pub_key (auth_payload auth))
               = Some shared)
    (Hpub : getPublicKey L privk = Some pubk)
    (Hhash : sha256 L (VStr u_next) = Some h)
    (Hm : link_id m = VStr u_req)
    (Herr : link_error m = false)
    (Hsec : Secret_fromHex L (VStr (bytesToHex L shared)) = Some sec) :
  let steps :=
    [DoConnect None ssl port (Some s); GotConnect None s u_auth;
     GotAuthenticated 0 auth; DoLink chain rd privk u_next u_req] in
  let w4 := perform_all L steps (mkWorld (constructor a None) []) in
  let w := perform L (GotLink m) w4 in
  let pl := link_payload m in
  (promises w4 = [Resolved (AAuth auth); Pending] /\
   authenticated (this w4) = false /\ linked (this w4) = false /\
   otp (this w4) = None /\
   requests (this w4) =
     [mkRequest "linkRequest" (VStr u_req)
        (VObj [("chain", chain); ("request", rd);
               ("pubkey", VStr (bytesToHex L pubk));
               ("next_hash", VStr h)]) 1]) /\
  promises w = [Resolved (AAuth auth); Resolved (ALink m)] /\
  connected (this w) = true /\
  authenticated (this w) = lp_authenticate pl /\
  linked (this w) = lp_link pl /\
  secret (this w) = VStr (bytesToHex L shared) /\
  next_identification (this w) = VStr u_next /\
  otp (this w) = Some (new_HOTP sec) /\
  identity (this w) =
    Some [("apphash", appHash a); ("identityhash", lp_identityhash pl);
          ("chain", lp_chain pl); ("appName", appName a);
          ("secret", VStr (bytesToHex L shared));
          ("next_id", VStr u_next); ("requested", lp_requested pl)] /\
  outcome (link_resume 1 w) = Return (LinkValue (ALink m)).
Proof.
  cbn zeta. unfold perform_all. cbn [fold_left perform].
  set (c0 := constructor a None).
  assert (world_after (connect None ssl port (Some s) (mkWorld c0 []))
          = mkWorld (set_socket (Some s) c0) [Pending]) as -> by reflexivity.
  assert (world_after (on_connect None s u_auth
                         (mkWorld (set_socket (Some s) c0) [Pending]))
          = mkWorld (set_connected true (set_socket (Some s) c0)) [Pending])
    as -> by reflexivity.
  destruct (on_authenticated_run L
              (mkWorld (set_connected true (set_socket (Some s) c0))
                 [Pending]) 0 auth) as (_ & Hno & _).
  rewrite (Hno Hauth). clear Hno. cbn [world_after this promises].
  change (settle 0 (Resolved (AAuth auth)) [Pending])
    with [Resolved (AAuth auth)].
  set (c3 := set_beetkey (ap_pub_key (auth_payload auth))
               (set_connected true (set_socket (Some s) c0))).
  rewrite (link_begin_first L (mkWorld c3 [Resolved (AAuth auth)]) chain rd
             privk shared pubk u_next u_req h s
             eq_refl eq_refl eq_refl Hkey Hshared Hpub Hhash).
  cbn [world_after this promises length app].
  split; [repeat split|].
  erewrite on_link_accept_run;
    [ | cbn; rewrite Hm; cbn; rewrite String.eqb_refl; reflexivity
      | exact Herr | right; reflexivity | exact Hsec ].
  cbn. repeat split.
Qed.

Lemma first_session_handshake_witness :
  let steps :=
    [DoConnect None true (VNum 60556) (Some 7); GotConnect None 7 "u0";
     GotAuthenticated 0 Scenario.token;
     DoLink (VStr "BTS") (VArr [VStr "account"]) Sample.privk "n1" "r1"] in
  let w4 := perform_all Sample.lib steps
              (mkWorld (constructor Sample.the_app None) []) in
  let w := perform Sample.lib (GotLink Sample.link_approval) w4 in
  (ap_link (auth_payload Scenario.token) = false /\
   truthy (VStr "PKHEX") = true /\
   getSharedSecret Sample.lib Sample.privk (VStr "PKHEX")
     = Some (String.list_byte_of_string "k1PKHEX") /\
   getPublicKey Sample.lib Sample.privk
     = Some (String.list_byte_of_string "1k") /\
   sha256 Sample.lib (VStr "n1") = Some "sha256:n1" /\
   link_id Sample.link_approval = VStr "r1" /\
   link_error Sample.link_approval = false /\
   Secret_fromHex Sample.lib (VStr "k1PKHEX")
     = Some (String.list_byte_of_string "k1PKHEX")) /\
  linked (this w) = lp_link (link_payload Sample.link_approval) /\
  otp (this w) = Some (new_HOTP (String.list_byte_of_string "k1PKHEX")) /\
  promises w = [Resolved (AAuth Scenario.token);
                Resolved (ALink Sample.link_approval)].
Proof.
  pose proof (first_session_handshake Sample.lib Sample.the_app true
                (VNum 60556) 7 "u0" "n1" "r1" "sha256:n1" Sample.privk
                (String.list_byte_of_string "k1PKHEX")
                (String.list_byte_of_string "1k")
                (String.list_byte_of_string "k1PKHEX")
                (VStr "BTS") (VArr [VStr "account"]) Scenario.token
                Sample.link_approval
                eq_refl eq_refl eq_refl eq_refl eq_refl eq_refl eq_refl
                eq_refl)
    as (_ & Hp & _ & _ & Hl & _ & _ & Ho & _).
  split; [repeat split|].
  split; [exact Hl|]. split; [exact Ho|exact Hp].
Defined.

(** ** Api requests and their answers *)


(** ** Api requests that are on their way together *)









(** *** The steps of a call that goes through *)

Lemma advance_begin L w payload uuid s :
  connected (this w) && authenticated (this w) && linked (this w) = true ->
  socket (this w) = Some s ->
  advance L (NotBegun payload uuid) w =
  mkRun (mkWorld (this w) (promises w ++ [Pending])) []
        (Return (Waiting (ApiDrawn (length (promises w)) payload
                            (next_identification (this w)) uuid))).
Proof.
  intros Hflags Hsock. open_world w. subst.
  apply andb_true_iff in Hflags as [Hflags ->].
  apply andb_true_iff in Hflags as [-> ->].
  reflexivity.
Qed.

Lemma advance_drawn L w p payload id uuid nh :
  sha256 L (VStr uuid) = Some nh ->
  advance L (Waiting (ApiDrawn p payload id uuid)) w =
  mkRun (mkWorld (set_next_identification (VStr uuid) (this w))
           (promises w)) []
        (Return (Waiting (ApiHashed p payload (mkIds id nh)))).
Proof.
  intros Hhash. open_world w. cbn. unfold api_step. unfold_ops. cbn.
  rewrite Hhash. reflexivity.
Qed.

Lemma advance_hashed L w p payload payload' id nh h s :
  set_prop payload "next_hash" (VStr nh) = inr payload' ->
  otp (this w) = Some h ->
  socket (this w) = Some s ->
  let h' := set_counter id h in
  let key := HOTP_generate L h' in
  let text := JSON_stringify L payload' in
  let request := mkRequest "api" id (VStr (aes_encrypt L text key)) p in
  advance L (Waiting (ApiHashed p payload (mkIds id nh))) w =
  mkRun (mkWorld
           (set_requests (requests (this w) ++ [request])
              (set_otp (Some h') (this w)))
           (promises w))
        [EGenerate h'; EEncrypt text key; EEmit s "api" (message_of request)]
        (Return (Ended p)).
Proof.
  intros Hset Hotp Hsock. open_world w. subst. cbn. unfold api_step.
  unfold_ops. cbn. rewrite Hset. reflexivity.
Qed.

(** The steps of one call, taken one after the other with nothing in
    between, are [sendRequest]. *)
Lemma sendRequest_api_by_steps L payload uuid w :
  let steps :=
    let* a := advance L (NotBegun payload uuid) in
    let* b := advance L a in
    advance L b in
  world_after (steps w) = world_after (sendRequest L "api" payload uuid w) /\
  trace (steps w) = trace (sendRequest L "api" payload uuid w) /\
  outcome (steps w) = Return (Ended (length (promises w))) /\
  outcome (sendRequest L "api" payload uuid w)
  = Return (length (promises w)).
Proof.
  open_world w. unfold advance, api_begin, api_step.
  destruct conn, auth, lnk, sock; run_cases; repeat split.
Qed.





(** X19: the round trip of an api request. When decrypting with a key what
    was encrypted with that key gives the text back, a linked session that
    sends an api request with an id not yet in the registry emits the
    encrypted serialized payload under the request id, and an encrypted
    response with that id whose payload the wallet encrypted with the
    one-time key of that id resolves the promise of the request with the
    clear text; in particular the emitted ciphertext itself decrypts to the
    serialized payload. *)
Theorem encrypted_answer_round_trip (L : Lib) (w : World)
    (payload payload' : value) (i1 uuid nh text : string) (s : nat)
    (h : HOTP)
    (Hround : forall t k, aes_decrypt L (VStr (aes_encrypt L t k)) k = Some t)
    (Hflags : connected (this w) && authenticated (this w)
              && linked (this w) = true)
    (Hsock : socket (this w) = Some s)
    (Hotp : otp (this w) = Some h)
    (Hid : next_identification (this w) = VStr i1)
    (Hnone : find_request (VStr i1) (requests (this w)) = inr None)
    (Hhash : sha256 L (VStr uuid) = Some nh)
    (Hset : set_prop payload "next_hash" (VStr nh) = inr payload') :
  let sent := sendRequest L "api" payload uuid w in
  let key := HOTP_generate L (set_counter (VStr i1) h) in
  let answer := mkApiMsg (VStr i1) false true
                  (VStr (aes_encrypt L text key)) in
  let echo := mkApiMsg (VStr i1) false true
                (VStr (aes_encrypt L (JSON_stringify L payload') key)) in
  In (EEmit s "api" (mkMessage "api" (VStr i1) (api_payload echo)))
     (trace sent) /\
  promises (world_after (on_api L answer (world_after sent)))
    !! length (promises w) = Some (Resolved (AValue (VStr text))) /\
  promises (world_after (on_api L echo (world_after sent)))
    !! length (promises w)
    = Some (Resolved (AValue (VStr (JSON_stringify L payload')))).
Proof.
  cbn zeta.
  rewrite (sendRequest_api_run L w payload payload' uuid nh s h)
    by assumption.
  cbn [world_after trace]. rewrite Hid.
  split; [cbn; auto|].
  assert (forall t,
    promises (world_after (on_api L
       (mkApiMsg (VStr i1) false true
          (VStr (aes_encrypt L t
                   (HOTP_generate L (set_counter (VStr i1) h)))))
       (mkWorld
          (set_requests
             (requests (this w) ++
                [mkRequest "api" (VStr i1)
                   (VStr (aes_encrypt L (JSON_stringify L payload')
                            (HOTP_generate L (set_counter (VStr i1) h))))
                   (length (promises w))])
             (set_otp (Some (set_counter (VStr i1) h))
                (set_next_identification (VStr uuid) (this w))))
          (promises w ++ [Pending]))))
    !! length (promises w) = Some (Resolved (AValue (VStr t)))) as H.
  { intros t. unfold_ops. cbn.
    rewrite find_request_last; [|assumption|apply strict_eq_str_refl].
    cbn. rewrite Hround. cbn. rewrite settle_new.
    rewrite lookup_app_r by lia. rewrite Nat.sub_diag. reflexivity. }
  split; apply H.
Qed.

Lemma string_append_assoc a b c :
  String.append (String.append a b) c = String.append a (String.append b c).
Proof.
  induction a as [|x a IH]; [reflexivity|].
  change (String x (String.append (String.append a b) c)
          = String x (String.append a (String.append b c))).
  f_equal. exact IH.
Qed.

Lemma string_prefix_append a b : String.prefix a (String.append a b) = true.
Proof.
  induction a as [|x a IH]; [destruct b; reflexivity|].
  change ((if Ascii.ascii_dec x x
           then String.prefix a (String.append a b) else false) = true).
  destruct (Ascii.ascii_dec x x); [exact IH|congruence].
Qed.

Lemma string_substring_all b : String.substring 0 (String.length b) b = b.
Proof.
  induction b as [|x b IH]; cbn; [reflexivity|]. f_equal. exact IH.
Qed.

Lemma string_substring_append a b :
  String.substring (String.length a)
    (String.length (String.append a b) - String.length a)
    (String.append a b) = b.
Proof.
  induction a as [|x a IH].
  - change (String.substring 0 (String.length b - 0) b = b).
    rewrite Nat.sub_0_r. apply string_substring_all.
  - exact IH.
Qed.

(** The cipher of the sample library gives the text back. *)
Lemma sample_cipher_round_trip t k :
  aes_decrypt Sample.lib (VStr (aes_encrypt Sample.lib t k)) k = Some t.
Proof.
  assert (aes_encrypt Sample.lib t k
          = String.append (String.append k "|") t) as ->
    by (symmetry; apply string_append_assoc).
  cbn [aes_decrypt Sample.lib].
  rewrite string_prefix_append, string_substring_append. reflexivity.
Qed.

Lemma encrypted_answer_round_trip_witness :
  let sent := sendRequest Sample.lib "api" Sample.call "id-2"
                Sample.linked_world in
  let answer := mkApiMsg (VStr "id-1") false true
                  (VStr (aes_encrypt Sample.lib "result" "abcd#id-1")) in
  (connected Sample.linked_conn && authenticated Sample.linked_conn
     && linked Sample.linked_conn = true /\
   socket Sample.linked_conn = Some 7 /\
   otp Sample.linked_conn = Some Sample.the_otp /\
   next_identification Sample.linked_conn = VStr "id-1" /\
   find_request (VStr "id-1") (requests Sample.linked_conn) = inr None /\
   sha256 Sample.lib (VStr "id-2") = Some "sha256:id-2" /\
   HOTP_generate Sample.lib (set_counter (VStr "id-1") Sample.the_otp)
     = "abcd#id-1") /\
  promises (world_after (on_api Sample.lib answer (world_after sent))) !! 2
    = Some (Resolved (AValue (VStr "result"))).
Proof.
  cbn zeta. split; [repeat split|].
  exact (proj1 (proj2 (encrypted_answer_round_trip Sample.lib
                         Sample.linked_world Sample.call _ "id-1" "id-2"
                         "sha256:id-2" "result" 7 Sample.the_otp
                         sample_cipher_round_trip
                         eq_refl eq_refl eq_refl eq_refl eq_refl eq_refl
                         eq_refl))).
Defined.

Lemma sendRequest_api_unlinked_run (L : Lib) (w : World)
    (payload : value) (uuid : string) (s : nat) :
  connected (this w) = true -> socket (this w) = Some s ->
  authenticated (this w) && linked (this w) = false ->
  sendRequest L "api" payload uuid w =
  mkRun (mkWorld (this w) (promises w ++ [Pending])) []
        (Return (length (promises w))).
Proof.
  intros Hconn Hsock Hlink. open_world w. subst.
  unfold_ops. cbn. rewrite Hlink. reflexivity.
Qed.

(** X20: the api calls ([requestAccount], [requestSignature],
    [injectedCall], [signMessage], [signNFT], [verifyMessage]) made on a
    session that has a channel but is not both authenticated and linked
    never return: each gets a promise that nothing holds, and whatever is
    called and whatever arrives afterwards, the call is still waiting. *)
Theorem api_calls_before_link_never_return (L : Lib)
    (JSON_parse : value -> option value) (w : World) (s : nat)
    (payload : value) (uuid : string) (l : list action)
    (Hok : registry_ok w)
    (Hconn : connected (this w) = true)
    (Hsock : socket (this w) = Some s)
    (Hlink : authenticated (this w) && linked (this w) = false)
    (Hl : existsb (authenticates (length (promises w))) l = false) :
  let p := length (promises w) in
  let later (r : run promise) := perform_all L l (world_after r) in
  let awaits (r : run promise) (resume : promise -> M call_result) :=
    outcome r = Return p /\
    resume p (later r) = mkRun (later r) [] (Return CallStillAwaits) in
  awaits (requestAccount_begin L uuid w)
         (requestAccount_resume JSON_parse) /\
  awaits (requestSignature_begin L payload uuid w)
         requestSignature_resume /\
  awaits (injectedCall_begin L payload uuid w) injectedCall_resume /\
  awaits (signMessage_begin L payload uuid w)
         (signMessage_resume JSON_parse) /\
  awaits (signNFT_begin L payload uuid w) (signNFT_resume JSON_parse) /\
  awaits (verifyMessage_begin L payload uuid w) verifyMessage_resume.
Proof.
  cbn zeta.
  assert (forall pl,
    outcome (sendRequest L "api" pl uuid w) = Return (length (promises w)) /\
    promises (perform_all L l (world_after (sendRequest L "api" pl uuid w)))
      !! length (promises w) = Some Pending) as Hkeep.
  { intros pl.
    rewrite (sendRequest_api_unlinked_run L w pl uuid s) by assumption.
    split; [reflexivity|].
    cbn [world_after]. rewrite perform_all_free_of.
    - cbn. rewrite lookup_app_r by lia. rewrite Nat.sub_diag. reflexivity.
    - split; cbn.
      + rewrite length_app. cbn. lia.
      + destruct Hok as [HF _]. eapply Forall_impl; [exact HF|].
        cbn. intros; lia.
    - exact Hl. }
  unfold requestAccount_begin, requestSignature_begin, injectedCall_begin,
    signMessage_begin, signNFT_begin, verifyMessage_begin,
    requestAccount_resume, requestSignature_resume, injectedCall_resume,
    signMessage_resume, signNFT_resume, verifyMessage_resume, await_call.
  repeat split; try apply Hkeep.
  all: match goal with
       | |- context [sendRequest _ "api" ?pl _ _] =>
           rewrite (proj2 (Hkeep pl))
       end; reflexivity.
Qed.

Lemma api_calls_before_link_never_return_witness :
  let l := [GotApi Sample.answer_a; DoSetAuth Sample.linked_token;
            GotApi (mkApiMsg VNull false false (VStr "late"));
            GotDisconnect] in
  let begun := requestAccount_begin Sample.lib "id-2"
                 Sample.authenticated_world in
  registry_ok Sample.authenticated_world /\
  connected Sample.authenticated_conn = true /\
  socket Sample.authenticated_conn = Some 7 /\
  authenticated Sample.authenticated_conn
    && linked Sample.authenticated_conn = false /\
  existsb (authenticates 0) l = false /\
  outcome begun = Return 0 /\
  outcome (requestAccount_resume Scenario.parse 0
             (perform_all Sample.lib l (world_after begun)))
    = Return CallStillAwaits.
Proof.
  cbn zeta.
  assert (registry_ok Sample.authenticated_world) as Hok
    by (split; constructor).
  split; [exact Hok|]. do 4 (split; [reflexivity|]).
  destruct (api_calls_before_link_never_return Sample.lib Scenario.parse
              Sample.authenticated_world 7 Sample.call "id-2"
              [GotApi Sample.answer_a; DoSetAuth Sample.linked_token;
               GotApi (mkApiMsg VNull false false (VStr "late"));
               GotDisconnect]
              Hok eq_refl eq_refl eq_refl eq_refl) as ((Ho & Hr) & _).
  split; [exact Ho|exact (f_equal outcome Hr)].
Defined.

(** X21: how the api calls end. A rejected request makes each of them
    return undefined and changes nothing, the identity included.
    [requestSignature], [injectedCall] and [verifyMessage] return what the
    request was resolved with. [signMessage] and [signNFT] return undefined
    for an empty answer and parse any other; [requestAccount] parses every
    answer, so an answer that does not parse makes it throw. *)
Theorem api_call_results (JSON_parse : value -> option value) (w : World)
    (p : nat) :
  let undefined := mkRun w [] (Return CallUndefined) in
  (forall e, promises w !! p = Some (Rejected e) ->
     requestAccount_resume JSON_parse p w = undefined /\
     requestSignature_resume p w = undefined /\
     injectedCall_resume p w = undefined /\
     signMessage_resume JSON_parse p w = undefined /\
     signNFT_resume JSON_parse p w = undefined /\
     verifyMessage_resume p w = undefined) /\
  (forall a, promises w !! p = Some (Resolved a) ->
     requestSignature_resume p w = mkRun w [] (Return (CallAnswer a)) /\
     injectedCall_resume p w = mkRun w [] (Return (CallAnswer a)) /\
     verifyMessage_resume p w = mkRun w [] (Return (CallAnswer a))) /\
  (forall v, promises w !! p = Some (Resolved (AValue v)) ->
     truthy v = false ->
     signMessage_resume JSON_parse p w = undefined /\
     signNFT_resume JSON_parse p w = undefined /\
     requestAccount_resume JSON_parse p w =
       match JSON_parse v with
       | Some x => mkRun w [] (Return (CallParsed x))
       | None => mkRun w [] (Throw (LibError "JSON.parse"))
       end) /\
  (forall v, promises w !! p = Some (Resolved (AValue v)) ->
     truthy v = true ->
     let parsed :=
       match JSON_parse v with
       | Some x => mkRun w [] (Return (CallParsed x))
       | None => mkRun w [] (Throw (LibError "JSON.parse"))
       end in
     signMessage_resume JSON_parse p w = parsed /\
     signNFT_resume JSON_parse p w = parsed /\
     requestAccount_resume JSON_parse p w = parsed).
Proof.
  unfold requestAccount_resume, requestSignature_resume, injectedCall_resume,
    signMessage_resume, signNFT_resume, verifyMessage_resume, await_call.
  cbn zeta. repeat split; intros.
  all: match goal with
       | H : promises _ !! _ = Some _ |- _ => rewrite H
       end.
  all: try reflexivity.
  all: cbn; rewrite ?H0; unfold_ops; cbn;
       destruct (JSON_parse v); reflexivity.
Qed.

Lemma api_call_results_witness :
  let w := mkWorld Sample.linked_conn
             [Rejected (AValue (VStr "declined"));
              Resolved (AValue (VStr ""))] in
  promises w !! 0 = Some (Rejected (AValue (VStr "declined"))) /\
  requestAccount_resume Scenario.parse 0 w
    = mkRun w [] (Return CallUndefined) /\
  promises w !! 1 = Some (Resolved (AValue (VStr ""))) /\
  truthy (VStr "") = false /\
  signMessage_resume Scenario.parse 1 w = mkRun w [] (Return CallUndefined)
  /\ requestAccount_resume Scenario.parse 1 w
     = mkRun w [] (Throw (LibError "JSON.parse")).
Proof.
  cbn zeta.
  set (w := mkWorld Sample.linked_conn
              [Rejected (AValue (VStr "declined"));
               Resolved (AValue (VStr ""))]).
  destruct (api_call_results Scenario.parse w 0) as (Hrej & _).
  destruct (api_call_results Scenario.parse w 1) as (_ & _ & Hempty & _).
  split; [reflexivity|].
  split; [exact (proj1 (Hrej _ eq_refl))|].
  split; [reflexivity|]. split; [reflexivity|].
  destruct (Hempty (VStr "") eq_refl eq_refl) as (Hs & _ & Ha).
  split; [exact Hs|exact Ha].
Defined.

(** ** The injected transaction builder *)

Lemma add_signer_accepts private_key public_key b :
  add_signer private_key public_key b =
  if strict_eq private_key (VStr "inject_wif")
  then inr (with_keys (keys_of b ++ [public_key]) b)
  else inl (ThrownExn (Error "Do not inject wif while using Beet")).
Proof.
  unfold add_signer, with_keys, keys_of.
  destruct private_key; try reflexivity. cbn.
  destruct (String.eqb s "inject_wif") eqn:E;
    [|rewrite orb_true_r; reflexivity].
  apply String.eqb_eq in E. subst. reflexivity.
Qed.

Lemma strict_eq_sentinel v :
  strict_eq v (VStr "inject_wif") = true -> v = VStr "inject_wif".
Proof.
  destruct v; try discriminate. cbn. intros E.
  apply String.eqb_eq in E. congruence.
Qed.

Lemma add_signers_sentinel (calls : list (value * value)) (b : Builder) :
  Forall (fun c => fst c = VStr "inject_wif") calls -> calls <> [] ->
  add_signers calls b = inr (with_keys (keys_of b ++ map snd calls) b).
Proof.
  intros HF. revert b. induction HF as [|[pk pub] rest Hpk HF IH];
    intros b Hne; [congruence|].
  cbn in Hpk. subst pk. cbn [add_signers].
  rewrite add_signer_accepts. cbn.
  destruct rest as [|c rest'].
  - reflexivity.
  - rewrite IH by discriminate. unfold with_keys, keys_of. cbn.
    rewrite <- app_assoc. reflexivity.
Qed.

(** X22: the injected [add_signer] never keeps a private key. A run of
    calls that all pass the text "inject_wif" as the private key leaves the
    builder as it was but for its public keys, which are the ones it had
    followed by those of the calls, in the order of the calls; a run with
    one call whose private key is anything else throws, whatever the other
    calls pass. *)
Theorem add_signers_collects (calls : list (value * value)) (b : Builder) :
  (Forall (fun c => fst c = VStr "inject_wif") calls ->
   calls <> [] ->
   add_signers calls b = inr (with_keys (keys_of b ++ map snd calls) b)) /\
  (Exists (fun c => fst c <> VStr "inject_wif") calls ->
   add_signers calls b
   = inl (ThrownExn (Error "Do not inject wif while using Beet"))).
Proof.
  split; [apply add_signers_sentinel|].
  intros HE. revert b. induction calls as [|[pk pub] rest IH]; intros b.
  - inversion HE.
  - cbn [add_signers]. rewrite add_signer_accepts.
    destruct (strict_eq pk (VStr "inject_wif")) eqn:E; [|reflexivity].
    apply IH. inversion HE as [? ? H|? ? H]; subst; [|assumption].
    cbn in H. exfalso. apply H. apply strict_eq_sentinel. exact E.
Qed.

Lemma add_signers_collects_witness :
  (Forall (fun c => fst c = VStr "inject_wif") Scenario.two_signers /\
   Scenario.two_signers <> [] /\
   add_signers Scenario.two_signers Scenario.builder
   = inr (with_keys [VStr "BTS6pub1"; VStr "BTS7pub2"] Scenario.builder)) /\
  (Exists (fun c => fst c <> VStr "inject_wif")
     [(VStr "inject_wif", VStr "BTS6pub1"); (VStr "5Kprivate", VStr "BTS7")]
   /\ add_signers
        [(VStr "inject_wif", VStr "BTS6pub1"); (VStr "5Kprivate", VStr "BTS7")]
        Scenario.builder
      = inl (ThrownExn (Error "Do not inject wif while using Beet"))).
Proof.
  assert (Forall (fun c : value * value => fst c = VStr "inject_wif")
            Scenario.two_signers) as HF
    by (repeat constructor).
  assert (Scenario.two_signers <> []) as Hne by discriminate.
  assert (Exists (fun c : value * value => fst c <> VStr "inject_wif")
            [(VStr "inject_wif", VStr "BTS6pub1");
             (VStr "5Kprivate", VStr "BTS7")]) as HE
    by (apply Exists_cons_tl, Exists_cons_hd; discriminate).
  split.
  - split; [exact HF|]. split; [exact Hne|].
    exact (proj1 (add_signers_collects Scenario.two_signers Scenario.builder)
             HF Hne).
  - split; [exact HE|].
    exact (proj2 (add_signers_collects _ Scenario.builder) HE).
Defined.

(** X23: the injected [sign()] of the sign-and-broadcast injection. It
    succeeds exactly on a finalized builder that is not yet signed and has
    at least one public key, and then only marks the builder as signed; a
    second call throws "already signed"; on a finalized builder to which no
    signer was ever added it is a TypeError and not the "no_signers" error;
    and after one accepted [add_signer] it succeeds and keeps the keys. *)
Theorem sign_for_broadcast_cases (b : Builder) :
  (forall b', sign_for_broadcast b = inr b' <->
     truthy (tr_buffer b) = true /\ truthy (signed b) = false /\
     (exists k ks, signer_public_keys b = Some (k :: ks)) /\
     b' = mkBuilder (tr_buffer b) (VBool true) (signer_public_keys b)
            (operations b) (tr_object b)) /\
  (forall b', sign_for_broadcast b = inr b' ->
     sign_for_broadcast b' = inl (ThrownExn (Error "already signed"))) /\
  (truthy (tr_buffer b) = true -> truthy (signed b) = false ->
   signer_public_keys b = None ->
   sign_for_broadcast b
   = inl (ThrownExn (TypeError "Cannot read properties of undefined"))) /\
  (forall pub b1, truthy (tr_buffer b) = true -> truthy (signed b) = false ->
     add_signer (VStr "inject_wif") pub b = inr b1 ->
     exists b2, sign_for_broadcast b1 = inr b2 /\
                signer_public_keys b2 = Some (keys_of b ++ [pub])).
Proof.
  split; [|split; [|split]].
  - unfold sign_for_broadcast. destruct b as [buf sg keys ops obj]. cbn.
    intros b'. destruct (truthy buf), (truthy sg), keys as [[|k ks]|]; cbn;
      split; try discriminate.
    all: try (intros [= <-]; repeat split; eauto; fail).
    all: try (intros (H1 & H2 & (k' & ks' & H3) & H4); discriminate).
    intros (_ & _ & _ & ->). reflexivity.
  - unfold sign_for_broadcast. destruct b as [buf sg keys ops obj]. cbn.
    intros b'. destruct (truthy buf) eqn:E, (truthy sg), keys as [[|k ks]|];
      cbn; try discriminate.
    intros [= <-]. cbn. rewrite E. reflexivity.
  - unfold sign_for_broadcast. intros -> -> ->. reflexivity.
  - intros pub b1 Hb Hs. rewrite add_signer_accepts. cbn. intros [= <-].
    unfold sign_for_broadcast, with_keys, keys_of. cbn. rewrite Hb, Hs. cbn.
    destruct (signer_public_keys b) as [[|k ks]|]; cbn;
      eexists; split; reflexivity.
Qed.

Lemma sign_for_broadcast_cases_witness :
  let signed_once :=
    mkBuilder (VStr "buffer") (VBool true) (Some [VStr "BTS6pub1"])
      (VArr [VStr "transfer"])
      (VObj [("operations", VArr [VStr "transfer"])]) in
  (truthy (tr_buffer Scenario.builder) = true /\
   truthy (signed Scenario.builder) = false /\
   signer_public_keys Scenario.builder = None /\
   sign_for_broadcast Scenario.builder
   = inl (ThrownExn (TypeError "Cannot read properties of undefined"))) /\
  (sign_for_broadcast (with_keys [VStr "BTS6pub1"] Scenario.builder)
   = inr signed_once /\
   sign_for_broadcast signed_once
   = inl (ThrownExn (Error "already signed"))).
Proof.
  cbn zeta. split.
  - do 3 (split; [reflexivity|]).
    exact (proj1 (proj2 (proj2 (sign_for_broadcast_cases Scenario.builder)))
             eq_refl eq_refl eq_refl).
  - split; [reflexivity|].
    exact (proj1 (proj2 (sign_for_broadcast_cases
                           (with_keys [VStr "BTS6pub1"] Scenario.builder)))
             _ eq_refl).
Defined.

(** X24: [inject] returns only for a transaction builder on one of the
    chains BTS, BTS_TEST and TUSC, and not for the options that broadcast
    without signing: in every other case (no identity, any other chain,
    STEEM and BNB_TEST included, or another point of injection) it throws.
    When it returns, the options decide what has been injected, and without
    options it is signing and broadcasting in one call. *)
Theorem inject_succeeds_iff (poi : PointOfInjection)
    (options : option Options) (c : BeetConnection) (x : injection) :
  inject poi options c = inr x <->
  exists i chain,
    identity c = Some i /\ chain_text (obj_get i "chain") = Some chain /\
    (chain = "BTS" \/ chain = "BTS_TEST" \/ chain = "TUSC") /\
    poi_get_type_operation poi = true /\
    match options with
    | None => x = InjectedSignAndBroadcast
    | Some o =>
        (opt_sign o = true /\ opt_broadcast o = true /\
         x = InjectedSignAndBroadcast) \/
        (opt_sign o = true /\ opt_broadcast o = false /\ x = InjectedSign) \/
        (opt_sign o = false /\ opt_broadcast o = false /\ x = NotInjected)
    end.
Proof.
  unfold inject. destruct (identity c) as [i|]; cycle 1.
  { split; [discriminate|]. intros (i & ch & H & _). discriminate. }
  unfold chain_is. split.
  - destruct (chain_text (obj_get i "chain")) as [ch|] eqn:Hc; cbn;
      try (destruct (poi_broadcast poi), (poi_placeOrder poi); discriminate).
    destruct (String.eqb ch "BTS") eqn:E1;
    [|destruct (String.eqb ch "BTS_TEST") eqn:E2;
      [|destruct (String.eqb ch "TUSC") eqn:E3]]; cbn.
    4: { destruct (String.eqb ch "STEEM"), (String.eqb ch "BNB_TEST"),
           (poi_broadcast poi), (poi_placeOrder poi); discriminate. }
    all: destruct (poi_get_type_operation poi) eqn:Hp; [|discriminate].
    all: intros H; exists i, ch; split; [reflexivity|]; split; [exact Hc|].
    all: split; [first [apply String.eqb_eq in E1 | apply String.eqb_eq in E2
                       | apply String.eqb_eq in E3]; auto|].
    all: split; [reflexivity|].
    all: destruct options as [[[] []]|]; cbn in H; simplify_eq; auto 10.
  - intros (i0 & ch & [= <-] & Hc & Hch & Hp & Ho). rewrite Hc, Hp. cbn.
    assert (String.eqb ch "BTS" || String.eqb ch "BTS_TEST"
            || String.eqb ch "TUSC" = true) as ->.
    { destruct Hch as [->|[->| ->]]; reflexivity. }
    destruct options as [[[] []]|]; cbn;
      destruct Ho as [Ho|[Ho|Ho]] || idtac;
      try (destruct Ho as (? & ? & ->)); subst; try discriminate; reflexivity.
Qed.

Lemma inject_succeeds_iff_witness :
  inject Scenario.transaction_builder (Some (mkOptions true false))
    Sample.linked_conn = inr InjectedSign /\
  exists i chain,
    identity Sample.linked_conn = Some i /\
    chain_text (obj_get i "chain") = Some chain /\
    (chain = "BTS" \/ chain = "BTS_TEST" \/ chain = "TUSC").
Proof.
  assert (inject Scenario.transaction_builder (Some (mkOptions true false))
            Sample.linked_conn = inr InjectedSign) as H by reflexivity.
  split; [exact H|].
  destruct (proj1 (inject_succeeds_iff _ _ _ _) H)
    as (i & ch & Hi & Hc & Hch & _).
  exists i, ch. split; [exact Hi|]. split; [exact Hc|exact Hch].
Defined.

(** X25: what the injected builder sends to the wallet. After a run of
    accepted [add_signer] calls on a linked session, [broadcast] sends one
    encrypted api request [injectedCall] whose parameters are the text
    "signAndBroadcast", the serialized transaction and the public keys of
    the builder followed by those of the calls, in the order of the calls;
    the [sign] of the sign-only injection sends the same with the text
    "sign". No private key is part of either. *)
Theorem broadcast_sends_collected_public_keys (L : Lib) (w : World)
    (b0 : Builder) (calls : list (value * value)) (ops : list value)
    (uuid nh : string) (s : nat) (h : HOTP)
    (Hcalls : Forall (fun c => fst c = VStr "inject_wif") calls)
    (Hne : calls <> [])
    (Hops : operations b0 = VArr ops)
    (Hflags : connected (this w) && authenticated (this w)
              && linked (this w) = true)
    (Hsock : socket (this w) = Some s)
    (Hotp : otp (this w) = Some h)
    (Hhash : sha256 L (VStr uuid) = Some nh) :
  exists b,
    add_signers calls b0 = inr b /\
    let text (action : string) :=
      JSON_stringify L
        (VObj [("method", VStr "injectedCall");
               ("params",
                VArr [VStr action; VStr (JSON_stringify L (tr_object b0));
                      VArr (keys_of b0 ++ map snd calls)]);
               ("next_hash", VStr nh)]) in
    let rid := next_identification (this w) in
    let key := HOTP_generate L (set_counter rid h) in
    let sends (action : string) (r : run promise) :=
      trace r =
        [EGenerate (set_counter rid h); EEncrypt (text action) key;
         EEmit s "api"
           (mkMessage "api" rid (VStr (aes_encrypt L (text action) key)))]
      /\ outcome r = Return (length (promises w)) in
    sends "signAndBroadcast" (send_to_beet L b uuid w) /\
    sends "sign" (sign_request L b uuid w).
Proof.
  eexists. split; [apply add_signers_sentinel; assumption|].
  cbn zeta. unfold send_to_beet, sign_request, with_keys.
  cbn [operations]. rewrite Hops. unfold call_payload.
  split.
  all: erewrite (sendRequest_api_run L w _ _ uuid nh s h Hflags Hsock Hotp
                   Hhash); [|reflexivity].
  all: split; reflexivity.
Qed.

Lemma broadcast_sends_collected_public_keys_witness :
  let text :=
    JSON_stringify Sample.lib
      (VObj [("method", VStr "injectedCall");
             ("params",
              VArr [VStr "signAndBroadcast";
                    VStr (JSON_stringify Sample.lib
                            (tr_object Scenario.builder));
                    VArr [VStr "BTS6pub1"; VStr "BTS7pub2"]]);
             ("next_hash", VStr "sha256:id-2")]) in
  (Forall (fun c => fst c = VStr "inject_wif") Scenario.two_signers /\
   Scenario.two_signers <> [] /\
   operations Scenario.builder = VArr [VStr "transfer"] /\
   connected Sample.linked_conn && authenticated Sample.linked_conn
     && linked Sample.linked_conn = true /\
   socket Sample.linked_conn = Some 7 /\
   otp Sample.linked_conn = Some Sample.the_otp /\
   sha256 Sample.lib (VStr "id-2") = Some "sha256:id-2") /\
  exists b,
    add_signers Scenario.two_signers Scenario.builder = inr b /\
    trace (send_to_beet Sample.lib b "id-2" Sample.linked_world) =
      [EGenerate (set_counter (VStr "id-1") Sample.the_otp);
       EEncrypt text "abcd#id-1";
       EEmit 7 "api"
         (mkMessage "api" (VStr "id-1")
            (VStr (aes_encrypt Sample.lib text "abcd#id-1")))].
Proof.
  cbn zeta.
  assert (Forall (fun c : value * value => fst c = VStr "inject_wif")
            Scenario.two_signers) as HF
    by (repeat constructor).
  assert (Scenario.two_signers <> []) as Hne by discriminate.
  split; [split; [exact HF|split; [exact Hne|repeat split]]|].
  destruct (broadcast_sends_collected_public_keys Sample.lib
              Sample.linked_world Scenario.builder Scenario.two_signers
              [VStr "transfer"] "id-2" "sha256:id-2" 7 Sample.the_otp
              HF Hne eq_refl eq_refl eq_refl eq_refl eq_refl)
    as (b & Hb & (Ht & _) & _).
  exists b. split; [exact Hb|exact Ht].
Defined.

(** X26: [broadcast] on a builder whose operations are missing sends
    nothing: the promise it returns is rejected with the TypeError of
    reading their length, and the session stays as it was. *)
Theorem broadcast_without_operations (L : Lib) (w : World) (b : Builder)
    (uuid : string) :
  operations b = VUndef \/ operations b = VNull ->
  send_to_beet L b uuid w =
  mkRun (mkWorld (this w)
           (promises w ++
              [Rejected (AExn (TypeError
                                 "Cannot read properties of undefined"))]))
        [] (Return (length (promises w))).
Proof.
  intros [H|H]; unfold send_to_beet; rewrite H; unfold_ops; cbn;
    rewrite settle_new; reflexivity.
Qed.

Lemma broadcast_without_operations_witness :
  let b := mkBuilder (VStr "buffer") (VBool false) None VUndef VNull in
  (operations b = VUndef \/ operations b = VNull) /\
  trace (send_to_beet Sample.lib b "id-2" Sample.linked_world) = [] /\
  promises (world_after (send_to_beet Sample.lib b "id-2"
                           Sample.linked_world)) !! 2
  = Some (Rejected (AExn (TypeError "Cannot read properties of undefined"))).
Proof.
  cbn zeta. split; [left; reflexivity|].
  rewrite (broadcast_without_operations Sample.lib Sample.linked_world
             (mkBuilder (VStr "buffer") (VBool false) None VUndef VNull)
             "id-2" (or_introl eq_refl)).
  split; reflexivity.
Defined.
